(** * fs-access: a POSIX-style [access] check for Deno

    Shallow embedding of [mod.ts], [is_executable.ts] and [types.ts].

    The library is a thin decision procedure on top of the Deno runtime:
    every observable step is a call to a runtime primitive ([Deno.statSync],
    [Deno.openSync], ...).  The runtime is therefore an explicit parameter
    (a [Host]): a world type and one transition function per primitive.
    The library functions are written in a small state-and-exception monad
    over that host, and every primitive call is appended to a log, so that
    "which probe was performed" is a statement about the log. *)

From Stdlib Require Import ZArith Lia Bool Ascii String DecimalString.
From Stdlib Require DecimalZ DecimalPos.
From stdpp Require Import base option list strings gmap.

Local Open Scope Z_scope.

(** ** Values exchanged with the runtime *)

(** [path: string | URL].  A URL is represented by its [href]. *)
Inductive PathLike : Type :=
| PathString (s : string)
| PathURL (href : string).

(** [path.toString()], also what a template literal [`${path}`] yields. *)
Definition toString (path : PathLike) : string :=
  match path with
  | PathString s => s
  | PathURL href => href
  end.

(** [Deno.FileInfo], restricted to the fields the library can see. *)
Record FileInfo : Type := mkFileInfo {
  isFile : bool;
  isDirectory : bool;
  isSymlink : bool
}.

(** [Deno.OpenOptions]; the library sets [read] or [write], the other
    options keep their default [false]. *)
Record OpenOptions : Type := mkOpenOptions {
  read : bool;
  write : bool
}.

(** [Deno.FsFile]: a resource handle. *)
Record FsFile : Type := mkFsFile { rid : N }.

Record DirEntry : Type := mkDirEntry {
  name : string;
  entryIsFile : bool;
  entryIsDirectory : bool
}.

Inductive PermissionState : Type := granted | denied | prompt.

(** [{ name: "run", command: path }] *)
Record PermissionDescriptor : Type := mkPermissionDescriptor {
  permName : string;
  command : PathLike
}.

Record PermissionStatus : Type := mkPermissionStatus { state : PermissionState }.

Record CommandOutput : Type := mkCommandOutput { code : Z }.

(** ** Thrown values *)

(** The classes of [Deno.errors] (and [TypeError]) a primitive may throw;
    [OtherError] stands for an operating-system error without a class of
    its own. *)
Inductive ErrorClass : Type :=
| NotFound
| PermissionDenied
| NotCapable
| AlreadyExists
| IsADirectory
| NotADirectory
| BadResource
| TypeError
| OtherError.

Record DenoError : Type := mkDenoError {
  errClass : ErrorClass;
  errMessage : string
}.

(** What a [catch] clause can receive: an error raised by the runtime, or
    a plain [Error] built by the library, with [new Error(message)] or
    with [new Error(message, { cause })]. *)
Inductive exn : Type :=
| Native (e : DenoError)
| Error (message : string)
| ErrorWithCause (message : string) (cause : exn).

(** [error instanceof Deno.errors.NotFound] *)
Definition instanceofNotFound (error : exn) : bool :=
  match error with
  | Native {| errClass := NotFound |} => true
  | _ => false
  end.

(** A JavaScript completion: normal, or abrupt by [throw]. *)
Inductive completion (E A : Type) : Type :=
| Return (a : A)
| Throw (e : E).
Arguments Return {E A} a.
Arguments Throw {E A} e.

(** ** The runtime as a parameter *)

Record Host : Type := mkHost {
  world : Type;
  (** [Deno.build.os] *)
  build_os : string;
  (** [Deno.statSync] / [Deno.stat] *)
  host_stat : PathLike -> world -> completion DenoError FileInfo * world;
  (** [Deno.openSync] / [Deno.open] *)
  host_open : PathLike -> OpenOptions -> world -> completion DenoError FsFile * world;
  (** [FsFile.close] *)
  host_close : FsFile -> world -> completion DenoError unit * world;
  (** [Deno.readDirSync] / [Deno.readDir]: the entries the iterator will yield *)
  host_readDir : PathLike -> world -> completion DenoError (list DirEntry) * world;
  (** [Deno.writeTextFileSync] / [Deno.writeTextFile] *)
  host_writeTextFile : PathLike -> string -> world -> completion DenoError unit * world;
  (** [Deno.removeSync] / [Deno.remove] *)
  host_remove : PathLike -> world -> completion DenoError unit * world;
  (** [Date.now()], in milliseconds *)
  host_now : world -> Z * world;
  (** [Deno.permissions.querySync] / [Deno.permissions.query] *)
  host_query : PermissionDescriptor -> world -> completion DenoError PermissionStatus * world;
  (** [new Deno.Command(cmd, { args }).outputSync()] / [.output()] *)
  host_output : string -> list string -> world -> completion DenoError CommandOutput * world
}.

(** One entry of the log per primitive call. *)
Inductive event : Type :=
| EvStat (path : PathLike)
| EvOpen (path : PathLike) (options : OpenOptions)
| EvClose (file : FsFile)
| EvReadDir (path : PathLike)
| EvWriteTextFile (path : PathLike) (data : string)
| EvRemove (path : PathLike)
| EvNow
| EvQuery (desc : PermissionDescriptor)
| EvOutput (cmd : string) (args : list string).

(** ** Pure helpers from the JavaScript standard library *)

(** [String.prototype.toLowerCase] on one code unit.  Only the letters
    [A]-[Z] are mapped: no other character lower-cases to a character of
    the extensions tested below, so the restriction does not change any
    [endsWith] answer. *)
Definition lowerAscii (c : ascii) : ascii :=
  let n := N_of_ascii c in
  if ((65 <=? n) && (n <=? 90))%N then ascii_of_N (n + 32) else c.

Fixpoint toLowerCase (s : string) : string :=
  match s with
  | EmptyString => EmptyString
  | String c s' => String (lowerAscii c) (toLowerCase s')
  end.

(** [String.prototype.endsWith(searchString)]: with [end = length s] and
    [start = end - length searchString], false when [start < 0], otherwise
    the code units from [start] are compared with [searchString]. *)
Definition endsWith (s searchString : string) : bool :=
  let len := String.length s in
  let searchLength := String.length searchString in
  if (len <? searchLength)%nat then false
  else String.eqb (substring (len - searchLength) searchLength s) searchString.

(** Number-to-string conversion of a template literal, for an integral
    number (a time value is an integer of magnitude below 1e21, which
    JavaScript prints in plain decimal). *)
Definition numberToString (n : Z) : string :=
  NilZero.string_of_int (Z.to_int n).

(** [Iterator.prototype.next] on the entries obtained by [readDir]. *)
Definition iteratorNext (entries : list DirEntry) : option DirEntry * list DirEntry :=
  match entries with
  | [] => (None, [])
  | e :: rest => (Some e, rest)
  end.

(** ** types.ts *)

Module AccessMode.
Definition F_OK : Z := 0.
Definition R_OK : Z := 4.
Definition W_OK : Z := 2.
Definition X_OK : Z := 1.
End AccessMode.

(** [mode?: AccessMode]: [None] is [undefined] (or [null]); at run time an
    enum is any number, so a present mode is an arbitrary integer. *)
Definition AccessMode2String (mode : option Z) : string :=
  match mode with
  | Some m =>
      if m =? AccessMode.F_OK then "Exists"
      else if m =? AccessMode.R_OK then "Readable"
      else if m =? AccessMode.W_OK then "Writable"
      else if m =? AccessMode.X_OK then "Executable"
      else ""
  | None => ""
  end.

(** ** The monad of library code *)

(** State: the runtime's world and the log of primitive calls so far. *)
Definition st (h : Host) : Type := (world h * list event)%type.

Definition M (h : Host) (A : Type) : Type :=
  st h -> completion exn A * st h.

Section Monad.
Context {h : Host}.

Definition ret {A} (a : A) : M h A := fun s => (Return a, s).

(** [throw e] *)
Definition throw {A} (e : exn) : M h A := fun s => (Throw e, s).

Definition bind {A B} (c : M h A) (k : A -> M h B) : M h B :=
  fun s =>
    match c s with
    | (Return a, s') => k a s'
    | (Throw e, s') => (Throw e, s')
    end.

(** [try { body } catch (error) { handler }] *)
Definition tryCatch {A} (body : M h A) (handler : exn -> M h A) : M h A :=
  fun s =>
    match body s with
    | (Return a, s') => (Return a, s')
    | (Throw e, s') => handler e s'
    end.

(** A call to a runtime primitive: logged, and a failure of the
    primitive becomes a thrown [Native] error. *)
Definition prim {A} (ev : event)
    (f : world h -> completion DenoError A * world h) : M h A :=
  fun s =>
    match f (fst s) with
    | (Return a, w') => (Return a, (w', snd s ++ [ev]))
    | (Throw e, w') => (Throw (Native e), (w', snd s ++ [ev]))
    end.

(** [Date.now()] cannot fail. *)
Definition Date_now : M h Z :=
  fun s =>
    let (t, w') := host_now h (fst s) in
    (Return t, (w', snd s ++ [EvNow])).
End Monad.

Notation "'let!' x ':=' c 'in' k" := (bind c (fun x => k))
  (at level 10, x pattern, c at level 100, k at level 200).
Notation "c1 ';;' c2" := (bind c1 (fun _ => c2))
  (at level 100, c2 at level 200, right associativity).

(** ** The blocking primitives *)

Section Blocking.
Context {h : Host}.

Definition Deno_statSync (path : PathLike) : M h FileInfo :=
  prim (EvStat path) (host_stat h path).
Definition Deno_openSync (path : PathLike) (options : OpenOptions) : M h FsFile :=
  prim (EvOpen path options) (host_open h path options).
Definition FsFile_close (file : FsFile) : M h unit :=
  prim (EvClose file) (host_close h file).
Definition Deno_readDirSync (path : PathLike) : M h (list DirEntry) :=
  prim (EvReadDir path) (host_readDir h path).
Definition Deno_writeTextFileSync (path : PathLike) (data : string) : M h unit :=
  prim (EvWriteTextFile path data) (host_writeTextFile h path data).
Definition Deno_removeSync (path : PathLike) : M h unit :=
  prim (EvRemove path) (host_remove h path).
Definition Deno_permissions_querySync (desc : PermissionDescriptor) : M h PermissionStatus :=
  prim (EvQuery desc) (host_query h desc).
Definition Deno_Command_outputSync (cmd : string) (args : list string) : M h CommandOutput :=
  prim (EvOutput cmd args) (host_output h cmd args).
End Blocking.

(** ** The promise-returning primitives

    A promise is the deferred computation it stands for.  Every promise of
    the library is awaited (or chained with [then]) where it is created, so
    the computation runs at that point; the runtime operation behind
    [Deno.stat] is the one behind [Deno.statSync], and so on. *)

Definition Promise (h : Host) (A : Type) : Type := M h A.

Section NonBlocking.
Context {h : Host}.

(** [await p] *)
Definition await {A} (p : Promise h A) : M h A := p.

(** [p.then(onFulfilled)]: a callback that throws, or whose promise
    rejects, rejects the chained promise. *)
Definition promiseThen {A B} (p : Promise h A) (onFulfilled : A -> M h B) : Promise h B :=
  bind p onFulfilled.

(** [iterable[Symbol.asyncIterator]().next()] on the iterable returned by
    [Deno.readDir]: settles once the directory has been read. *)
Definition asyncIteratorNext (iterable : Promise h (list DirEntry))
    : Promise h (option DirEntry * list DirEntry) :=
  promiseThen iterable (fun entries => ret (iteratorNext entries)).

Definition Deno_stat (path : PathLike) : Promise h FileInfo :=
  prim (EvStat path) (host_stat h path).
Definition Deno_open (path : PathLike) (options : OpenOptions) : Promise h FsFile :=
  prim (EvOpen path options) (host_open h path options).
Definition Deno_readDir (path : PathLike) : Promise h (list DirEntry) :=
  prim (EvReadDir path) (host_readDir h path).
Definition Deno_writeTextFile (path : PathLike) (data : string) : Promise h unit :=
  prim (EvWriteTextFile path data) (host_writeTextFile h path data).
Definition Deno_remove (path : PathLike) : Promise h unit :=
  prim (EvRemove path) (host_remove h path).
Definition Deno_permissions_query (desc : PermissionDescriptor) : Promise h PermissionStatus :=
  prim (EvQuery desc) (host_query h desc).
Definition Deno_Command_output (cmd : string) (args : list string) : Promise h CommandOutput :=
  prim (EvOutput cmd args) (host_output h cmd args).
End NonBlocking.

(** ** is_executable.ts *)

Definition stateIsGranted (s : PermissionState) : bool :=
  match s with
  | granted => true
  | _ => false
  end.

Definition execExtensions : list string := [".exe"; ".cmd"; ".bat"; ".com"].

Section IsExecutable.
Context {h : Host}.

Definition isExecutableSync (path : PathLike) : M h bool :=
  let! fileInfo := Deno_statSync path in
  if negb (isFile fileInfo) then ret false
  else if String.eqb (build_os h) "windows" then
    ret (existsb (fun ext => endsWith (toLowerCase (toString path)) ext) execExtensions)
  else
    let! permissions :=
      Deno_permissions_querySync {| permName := "run"; command := path |} in
    if negb (stateIsGranted (state permissions)) then ret false
    else
      let! output := Deno_Command_outputSync "test" ["-x"; toString path] in
      ret (code output =? 0).

Definition isExecutable (path : PathLike) : Promise h bool :=
  let! fileInfo := await (Deno_stat path) in
  if negb (isFile fileInfo) then ret false
  else if String.eqb (build_os h) "windows" then
    ret (existsb (fun ext => endsWith (toLowerCase (toString path)) ext) execExtensions)
  else
    let! permissions :=
      await (Deno_permissions_query {| permName := "run"; command := path |}) in
    if negb (stateIsGranted (state permissions)) then ret false
    else
      let! output := await (Deno_Command_output "test" ["-x"; toString path]) in
      ret (code output =? 0).
End IsExecutable.

(** ** mod.ts *)

Section Access.
Context {h : Host}.

(** The name of the scratch entry of the directory write check. *)
Definition tempPathOf (path : PathLike) (now : Z) : string :=
  toString path +:+ "/.deno_access_test_" +:+ numberToString now.

(** The [catch] clause shared by both entry points. *)
Definition accessCatch (path : PathLike) (mode : option Z) (error : exn) : M h unit :=
  if instanceofNotFound error then
    throw (ErrorWithCause
             ("ENOENT: no such file or directory, access '" +:+ toString path +:+ "'")
             error)
  else
    throw (ErrorWithCause
             ("EACCES: permission denied, " +:+ AccessMode2String mode
                +:+ " '" +:+ toString path +:+ "'")
             error).

(** The [try] block of [accessSync]. *)
Definition accessSyncBody (path : PathLike) (mode : option Z) : M h unit :=
  let! fileInfo := Deno_statSync path in
  match mode with
  | None => ret tt
  | Some mode =>
      let isFile := isFile fileInfo in
      let isDirectory := isDirectory fileInfo in
      if mode =? AccessMode.R_OK then
        if isFile then
          let! file := Deno_openSync path {| read := true; write := false |} in
          FsFile_close file
        else if isDirectory then
          let! entries := Deno_readDirSync path in
          let _ := iteratorNext entries in
          ret tt
        else ret tt
      else if mode =? AccessMode.W_OK then
        if isFile then
          let! file := Deno_openSync path {| read := false; write := true |} in
          FsFile_close file
        else if isDirectory then
          let! now := Date_now in
          let tempPath := tempPathOf path now in
          Deno_writeTextFileSync (PathString tempPath) "";;
          Deno_removeSync (PathString tempPath)
        else ret tt
      else if mode =? AccessMode.X_OK then
        if isDirectory then
          let! entries := Deno_readDirSync path in
          let _ := iteratorNext entries in
          ret tt
        else if isFile then
          let! isExecutable := isExecutableSync path in
          if negb isExecutable then
            throw (Error ("EACCES: permission denied, execute '" +:+ toString path +:+ "'"))
          else ret tt
        else ret tt
      else ret tt
  end.

Definition accessSync (path : PathLike) (mode : option Z) : M h unit :=
  tryCatch (accessSyncBody path mode) (accessCatch path mode).

(** The [try] block of [access]. *)
Definition accessBody (path : PathLike) (mode : option Z) : Promise h unit :=
  let! fileInfo := await (Deno_stat path) in
  match mode with
  | None => ret tt
  | Some mode =>
      let isFile := isFile fileInfo in
      let isDirectory := isDirectory fileInfo in
      if mode =? AccessMode.R_OK then
        if isFile then
          await (promiseThen (Deno_open path {| read := true; write := false |})
                   (fun file => FsFile_close file))
        else if isDirectory then
          let! _ := await (asyncIteratorNext (Deno_readDir path)) in
          ret tt
        else ret tt
      else if mode =? AccessMode.W_OK then
        if isFile then
          await (promiseThen (Deno_open path {| read := false; write := true |})
                   (fun file => FsFile_close file))
        else if isDirectory then
          let! now := Date_now in
          let tempPath := tempPathOf path now in
          await (promiseThen (Deno_writeTextFile (PathString tempPath) "")
                   (fun _ => Deno_remove (PathString tempPath)))
        else ret tt
      else if mode =? AccessMode.X_OK then
        if isDirectory then
          let! _ := await (asyncIteratorNext (Deno_readDir path)) in
          ret tt
        else if isFile then
          let! executable := await (isExecutable path) in
          if negb executable then
            throw (Error ("EACCES: permission denied, execute '" +:+ toString path +:+ "'"))
          else ret tt
        else ret tt
      else ret tt
  end.

Definition access (path : PathLike) (mode : option Z) : Promise h unit :=
  tryCatch (accessBody path mode) (accessCatch path mode).
End Access.

(** ** The resolver table of the design, as data

    Written from the table of the design document, to be compared with
    the code above: the probe each (target kind, mode) cell names, and the
    primitive calls each probe stands for. *)

Inductive TargetKind : Type := File | Directory.

Inductive Probe : Type :=
| NoProbe
| OpenForReading
| OpenForWriting
| EnumerateOne
| ScratchCreateDelete
| ExecutePermission.

Definition resolverTable (kind : TargetKind) (mode : Z) : Probe :=
  if mode =? AccessMode.R_OK then
    match kind with File => OpenForReading | Directory => EnumerateOne end
  else if mode =? AccessMode.W_OK then
    match kind with File => OpenForWriting | Directory => ScratchCreateDelete end
  else if mode =? AccessMode.X_OK then
    match kind with File => ExecutePermission | Directory => EnumerateOne end
  else NoProbe.

Definition kindOf (info : FileInfo) : option TargetKind :=
  match isFile info, isDirectory info with
  | true, false => Some File
  | false, true => Some Directory
  | _, _ => None
  end.

Section Probes.
Context {h : Host}.

Definition runProbe (probe : Probe) (path : PathLike) : M h unit :=
  match probe with
  | NoProbe => ret tt
  | OpenForReading =>
      let! file := Deno_openSync path {| read := true; write := false |} in
      FsFile_close file
  | OpenForWriting =>
      let! file := Deno_openSync path {| read := false; write := true |} in
      FsFile_close file
  | EnumerateOne =>
      let! entries := Deno_readDirSync path in
      let _ := iteratorNext entries in
      ret tt
  | ScratchCreateDelete =>
      let! now := Date_now in
      Deno_writeTextFileSync (PathString (tempPathOf path now)) "";;
      Deno_removeSync (PathString (tempPathOf path now))
  | ExecutePermission =>
      let! executable := isExecutableSync path in
      if executable then ret tt
      else throw (Error ("EACCES: permission denied, execute '" +:+ toString path +:+ "'"))
  end.

(** The whole check as the design describes it: stat, the probe of the
    table, and one catch point. *)
Definition accessCheck (path : PathLike) (mode : Z) : M h unit :=
  tryCatch
    (let! info := Deno_statSync path in
     match kindOf info with
     | Some kind => runProbe (resolverTable kind mode) path
     | None => ret tt
     end)
    (accessCatch path (Some mode)).
End Probes.

(** The lexical test of the design for platforms without an executable
    bit: some suffix of the path is, up to letter case, one of the listed
    extensions. *)
Definition hasExecExtension (s : string) : Prop :=
  exists ext prefix suffix,
    ext ∈ execExtensions /\ s = prefix +:+ suffix /\ toLowerCase suffix = ext.

(** ** An in-memory runtime

    A small model of the runtime, used to run the library on concrete
    inputs and to state what the directory write check leaves behind: a
    POSIX-style file system without symbolic links.  A node is stored
    under its absolute path without a trailing slash, the root under the
    empty string; a path argument is resolved component by component,
    from the root or from the working directory. *)

Record Perms : Type := mkPerms {
  canRead : bool;
  canWrite : bool;
  canExec : bool
}.

Inductive Node : Type :=
| FileNode (content : string) (perms : Perms)
| DirNode (perms : Perms)
| OtherNode (perms : Perms).

Definition permsOf (n : Node) : Perms :=
  match n with
  | FileNode _ p => p
  | DirNode p => p
  | OtherNode p => p
  end.

Record MemWorld : Type := mkMemWorld {
  files : gmap string Node;
  cwd : string;
  clock : Z;
  runPermission : PermissionState;
  testInstalled : bool
}.

Definition notFoundError : DenoError :=
  {| errClass := NotFound; errMessage := "No such file or directory (os error 2)" |}.

Definition permissionDeniedError : DenoError :=
  {| errClass := PermissionDenied; errMessage := "Permission denied (os error 13)" |}.

Definition notADirectoryError : DenoError :=
  {| errClass := NotADirectory; errMessage := "Not a directory (os error 20)" |}.

Definition isADirectoryError : DenoError :=
  {| errClass := IsADirectory; errMessage := "Is a directory (os error 21)" |}.

Definition notEmptyError : DenoError :=
  {| errClass := OtherError; errMessage := "Directory not empty (os error 39)" |}.

Definition fileUrlError : DenoError :=
  {| errClass := TypeError; errMessage := "Must be a file URL." |}.

(** The part of [s] before its last ["/"], if there is one. *)
Fixpoint beforeLastSlash (s : string) : option string :=
  match s with
  | EmptyString => None
  | String c s' =>
      match beforeLastSlash s' with
      | Some d => Some (String c d)
      | None => if Ascii.eqb c "/" then Some EmptyString else None
      end
  end.

(** The components of a path, split at every ["/"]. *)
Fixpoint splitSlash (s : string) : list string :=
  match s with
  | EmptyString => [EmptyString]
  | String c s' =>
      if Ascii.eqb c "/" then EmptyString :: splitSlash s'
      else
        match splitSlash s' with
        | seg :: rest => String c seg :: rest
        | [] => [String c EmptyString]
        end
  end.

(** The key of the entry [name] of the directory stored under [dir], and
    the key of the directory an entry lies in. *)
Definition child (dir name : string) : string := dir +:+ "/" +:+ name.

Definition parent (key : string) : string :=
  match beforeLastSlash key with
  | Some dir => dir
  | None => EmptyString
  end.

(** The directory stored under [k]; [searchDir] also asks for search
    (execute) permission, which looking a name up in it needs. *)
Definition lookupDir (fs : gmap string Node) (k : string) : completion DenoError Perms :=
  match fs !! k with
  | None => Throw notFoundError
  | Some (DirNode p) => Return p
  | Some _ => Throw notADirectoryError
  end.

Definition searchDir (fs : gmap string Node) (k : string) : completion DenoError Perms :=
  match lookupDir fs k with
  | Return p => if canExec p then Return p else Throw permissionDeniedError
  | Throw e => Throw e
  end.

(** One step of path resolution, from the node [cur] along the
    component [c]: an empty component (a doubled or trailing slash)
    stays in place and needs a directory; [.] and [..] and a name need a
    searchable directory, and a name must exist in it. *)
Definition enter (fs : gmap string Node) (cur c : string) : completion DenoError string :=
  if String.eqb c "" then
    match lookupDir fs cur with
    | Return _ => Return cur
    | Throw e => Throw e
    end
  else
    match searchDir fs cur with
    | Throw e => Throw e
    | Return _ =>
        if String.eqb c "." then Return cur
        else if String.eqb c ".." then Return (parent cur)
        else
          match fs !! child cur c with
          | Some _ => Return (child cur c)
          | None => Throw notFoundError
          end
    end.

Fixpoint walk (fs : gmap string Node) (cur : string) (cs : list string)
    : completion DenoError string :=
  match cs with
  | [] => Return cur
  | c :: rest =>
      match enter fs cur c with
      | Return cur' => walk fs cur' rest
      | Throw e => Throw e
      end
  end.

(** Where resolution starts, and the components to walk: from the root
    for an absolute path, from the working directory otherwise; the
    empty path names nothing. *)
Definition startOf (wd s : string) : completion DenoError (string * list string) :=
  match s with
  | EmptyString => Throw notFoundError
  | String c rest =>
      if Ascii.eqb c "/" then Return (EmptyString, splitSlash rest)
      else Return (wd, splitSlash s)
  end.

(** The key a path string denotes. *)
Definition resolveKey (w : MemWorld) (s : string) : completion DenoError string :=
  match startOf (cwd w) s with
  | Throw e => Throw e
  | Return (from, cs) => walk (files w) from cs
  end.

Definition isSpecial (c : string) : bool :=
  String.eqb c "" || String.eqb c "." || String.eqb c "..".

(** The directory and the name under which a path string would create
    or remove an entry: the last component need not exist. *)
Definition locate (w : MemWorld) (s : string) : completion DenoError (string * string) :=
  match startOf (cwd w) s with
  | Throw e => Throw e
  | Return (from, cs) =>
      if isSpecial (List.last cs EmptyString) then
        match walk (files w) from cs with
        | Throw e => Throw e
        | Return k =>
            if String.eqb k "" then Throw permissionDeniedError
            else Return (parent k, List.last (splitSlash k) EmptyString)
        end
      else
        match walk (files w) from (List.removelast cs) with
        | Throw e => Throw e
        | Return dir => Return (dir, List.last cs EmptyString)
        end
  end.

Fixpoint stripPrefix (prefix s : string) : option string :=
  match prefix, s with
  | EmptyString, _ => Some s
  | String a prefix', String b s' =>
      if Ascii.eqb a b then stripPrefix prefix' s' else None
  | String _ _, EmptyString => None
  end.

(** The path string a path argument stands for; a URL must be a
    [file://] URL. *)
Definition resolve (path : PathLike) : option string :=
  match path with
  | PathString s => Some s
  | PathURL href => stripPrefix "file://" href
  end.

Definition keyOf (w : MemWorld) (path : PathLike) : completion DenoError string :=
  match resolve path with
  | None => Throw fileUrlError
  | Some s => resolveKey w s
  end.

Definition locateArg (w : MemWorld) (path : PathLike) : completion DenoError (string * string) :=
  match resolve path with
  | None => Throw fileUrlError
  | Some s => locate w s
  end.

Definition withFiles (w : MemWorld) (fs : gmap string Node) : MemWorld :=
  {| files := fs; cwd := cwd w; clock := clock w;
     runPermission := runPermission w; testInstalled := testInstalled w |}.

Definition defaultPerms : Perms :=
  {| canRead := true; canWrite := true; canExec := false |}.

Definition memStat (path : PathLike) (w : MemWorld) : completion DenoError FileInfo * MemWorld :=
  match keyOf w path with
  | Throw e => (Throw e, w)
  | Return k =>
      match files w !! k with
      | None => (Throw notFoundError, w)
      | Some (FileNode _ _) =>
          (Return {| isFile := true; isDirectory := false; isSymlink := false |}, w)
      | Some (DirNode _) =>
          (Return {| isFile := false; isDirectory := true; isSymlink := false |}, w)
      | Some (OtherNode _) =>
          (Return {| isFile := false; isDirectory := false; isSymlink := false |}, w)
      end
  end.

Definition memOpen (path : PathLike) (options : OpenOptions) (w : MemWorld)
    : completion DenoError FsFile * MemWorld :=
  match keyOf w path with
  | Throw e => (Throw e, w)
  | Return k =>
      match files w !! k with
      | None => (Throw notFoundError, w)
      | Some n =>
          if write options && (match n with DirNode _ => true | _ => false end) then
            (Throw isADirectoryError, w)
          else if (implb (read options) (canRead (permsOf n)))
                    && (implb (write options) (canWrite (permsOf n))) then
            (Return {| rid := 3 |}, w)
          else (Throw permissionDeniedError, w)
      end
  end.

Definition memClose (file : FsFile) (w : MemWorld) : completion DenoError unit * MemWorld :=
  (Return tt, w).

Definition childrenOf (fs : gmap string Node) (dir : string) : list (string * Node) :=
  filter (fun kv => bool_decide (beforeLastSlash kv.1 = Some dir)) (map_to_list fs).

Definition entryOf (kv : string * Node) : DirEntry :=
  {| name := List.last (splitSlash kv.1) EmptyString;
     entryIsFile := match kv.2 with FileNode _ _ => true | _ => false end;
     entryIsDirectory := match kv.2 with DirNode _ => true | _ => false end |}.

Definition memReadDir (path : PathLike) (w : MemWorld)
    : completion DenoError (list DirEntry) * MemWorld :=
  match keyOf w path with
  | Throw e => (Throw e, w)
  | Return k =>
      match files w !! k with
      | None => (Throw notFoundError, w)
      | Some (DirNode p) =>
          if canRead p then (Return (entryOf <$> childrenOf (files w) k), w)
          else (Throw permissionDeniedError, w)
      | Some _ => (Throw notADirectoryError, w)
      end
  end.

(** Creates the file, or replaces the content of an existing one.  The
    directory must be searchable; creating an entry in it also needs
    write permission on it, replacing a file's content needs write
    permission on the file. *)
Definition memWriteTextFile (path : PathLike) (data : string) (w : MemWorld)
    : completion DenoError unit * MemWorld :=
  match locateArg w path with
  | Throw e => (Throw e, w)
  | Return (dir, name) =>
      match searchDir (files w) dir with
      | Throw e => (Throw e, w)
      | Return dperms =>
          match files w !! child dir name with
          | Some (FileNode _ p) =>
              if canWrite p then
                (Return tt, withFiles w (<[child dir name := FileNode data p]> (files w)))
              else (Throw permissionDeniedError, w)
          | Some (DirNode _) => (Throw isADirectoryError, w)
          | Some (OtherNode _) => (Throw permissionDeniedError, w)
          | None =>
              if canWrite dperms then
                (Return tt,
                 withFiles w (<[child dir name := FileNode data defaultPerms]> (files w)))
              else (Throw permissionDeniedError, w)
          end
      end
  end.

(** Removes an entry from a directory that is searchable and writable. *)
Definition memRemove (path : PathLike) (w : MemWorld) : completion DenoError unit * MemWorld :=
  match locateArg w path with
  | Throw e => (Throw e, w)
  | Return (dir, name) =>
      match searchDir (files w) dir with
      | Throw e => (Throw e, w)
      | Return dperms =>
          match files w !! child dir name with
          | None => (Throw notFoundError, w)
          | Some n =>
              if negb (canWrite dperms) then (Throw permissionDeniedError, w)
              else
                match n, childrenOf (files w) (child dir name) with
                | DirNode _, _ :: _ => (Throw notEmptyError, w)
                | _, _ => (Return tt, withFiles w (delete (child dir name) (files w)))
                end
          end
      end
  end.

Definition memNow (w : MemWorld) : Z * MemWorld := (clock w, w).

Definition memQuery (desc : PermissionDescriptor) (w : MemWorld)
    : completion DenoError PermissionStatus * MemWorld :=
  (Return {| state := runPermission w |}, w).

(** [test -x file]: exit code 0 when the file exists with its execute
    bit set, 1 otherwise; spawning fails when no [test] program is found. *)
Definition memOutput (cmd : string) (args : list string) (w : MemWorld)
    : completion DenoError CommandOutput * MemWorld :=
  if negb (String.eqb cmd "test" && testInstalled w) then
    (Throw {| errClass := NotFound;
              errMessage := "Failed to spawn: No such file or directory (os error 2)" |}, w)
  else
    match args with
    | [flag; file] =>
        if String.eqb flag "-x" then
          match resolveKey w file with
          | Return k =>
              match files w !! k with
              | Some n => (Return {| code := if canExec (permsOf n) then 0 else 1 |}, w)
              | None => (Return {| code := 1 |}, w)
              end
          | Throw _ => (Return {| code := 1 |}, w)
          end
        else (Return {| code := 2 |}, w)
    | _ => (Return {| code := 2 |}, w)
    end.

Definition memHost (os : string) : Host :=
  {| world := MemWorld;
     build_os := os;
     host_stat := memStat;
     host_open := memOpen;
     host_close := memClose;
     host_readDir := memReadDir;
     host_writeTextFile := memWriteTextFile;
     host_remove := memRemove;
     host_now := memNow;
     host_query := memQuery;
     host_output := memOutput |}.

(** The same runtime started with run permission for the checked file
    only ([--allow-run=<file>]): the permission query for the file
    answers as before, but spawning [test] is refused. *)
Definition spawnRefused (cmd : string) (args : list string) (w : MemWorld)
    : completion DenoError CommandOutput * MemWorld :=
  (Throw {| errClass := NotCapable; errMessage := "Requires run access to test" |}, w).

Definition scopedRunHost (os : string) : Host :=
  {| world := MemWorld;
     build_os := os;
     host_stat := memStat;
     host_open := memOpen;
     host_close := memClose;
     host_readDir := memReadDir;
     host_writeTextFile := memWriteTextFile;
     host_remove := memRemove;
     host_now := memNow;
     host_query := memQuery;
     host_output := spawnRefused |}.

(** The last component of the scratch path at clock reading [t]. *)
Definition scratchSegment (t : Z) : string :=
  ".deno_access_test_" +:+ numberToString t.

(** Perform the check at each of the given clock readings, in order,
    stopping at the first failure. *)
Fixpoint accessSyncAt (os : string) (path : PathLike) (mode : option Z) (times : list Z)
    : M (memHost os) unit :=
  match times with
  | [] => ret tt
  | t :: rest =>
      fun s =>
        bind (accessSync path mode) (fun _ => accessSyncAt os path mode rest)
          ({| files := files (fst s); cwd := cwd (fst s); clock := t;
              runPermission := runPermission (fst s);
              testInstalled := testInstalled (fst s) |}, snd s)
  end.

(** The mode names of the design's error message. *)
Definition modeName (mode : option Z) : string :=
  match mode with
  | Some 0 => "Exists"
  | Some 4 => "Readable"
  | Some 2 => "Writable"
  | Some 1 => "Executable"
  | _ => ""
  end.

Definition definedMode (m : Z) : Prop :=
  m = AccessMode.F_OK \/ m = AccessMode.R_OK \/ m = AccessMode.W_OK \/ m = AccessMode.X_OK.

(** The modes for which the design asks for no probe: existence, an
    omitted mode, and any value outside the enumeration. *)
Definition existenceOnly (mode : option Z) : Prop :=
  mode = None \/ mode = Some AccessMode.F_OK \/ (exists m, mode = Some m /\ ~ definedMode m).

Definition enoentMessage (path : PathLike) : string :=
  "ENOENT: no such file or directory, access '" +:+ toString path +:+ "'".

Definition eaccesMessage (path : PathLike) (mode : option Z) : string :=
  "EACCES: permission denied, " +:+ modeName mode +:+ " '" +:+ toString path +:+ "'".

(** ** A sample world *)

Definition rwx : Perms := {| canRead := true; canWrite := true; canExec := true |}.
Definition rw_ : Perms := {| canRead := true; canWrite := true; canExec := false |}.
Definition r_x : Perms := {| canRead := true; canWrite := false; canExec := true |}.
Definition noPerms : Perms := {| canRead := false; canWrite := false; canExec := false |}.

Definition sampleFiles : gmap string Node :=
  <["" := DirNode rwx]>
  (<["/srv" := DirNode rwx]>
  (<["/srv/readme.md" := FileNode "fs-access" rw_]>
  (<["/srv/run.sh" := FileNode "#!/bin/sh" rwx]>
  (<["/srv/locked.txt" := FileNode "secret" noPerms]>
  (<["/srv/locked.dir" := DirNode r_x]>
  (<["/srv/tools.exe" := DirNode rwx]>
  (<["/srv/test.cmd" := FileNode "echo" rw_]>
  (<["/srv/ctl.sock" := OtherNode rw_]> ∅)))))))).

Definition sampleWorld : MemWorld :=
  {| files := sampleFiles; cwd := "/srv"; clock := 1700000000000;
     runPermission := granted; testInstalled := true |}.

(** The same world, holding an entry whose name is the one the directory
    write check will pick at the current clock reading. *)
Definition scratchName : string := "/srv/.deno_access_test_1700000000000".

Definition collidingWorld : MemWorld :=
  withFiles sampleWorld (<[scratchName := FileNode "keep me" rw_]> sampleFiles).

Definition linux : Host := memHost "linux".
Definition windows : Host := memHost "windows".
Definition start : MemWorld * list event := (sampleWorld, []).

(** ** The probe with a string-only path

    A second copy of the probe in the repository takes [path: string]:
    it passes the string itself where the other calls [path.toString()]. *)

Module StringPath.
Section Probe.
Context {h : Host}.

Definition isExecutable (path : string) : Promise h bool :=
  let! fileInfo := await (Deno_stat (PathString path)) in
  if negb (isFile fileInfo) then ret false
  else if String.eqb (build_os h) "windows" then
    ret (existsb (fun ext => endsWith (toLowerCase path) ext) execExtensions)
  else
    let! permissions :=
      await (Deno_permissions_query {| permName := "run"; command := PathString path |}) in
    if negb (stateIsGranted (state permissions)) then ret false
    else
      let! output := await (Deno_Command_output "test" ["-x"; path]) in
      ret (code output =? 0).

Definition isExecutableSync (path : string) : M h bool :=
  let! fileInfo := Deno_statSync (PathString path) in
  if negb (isFile fileInfo) then ret false
  else if String.eqb (build_os h) "windows" then
    ret (existsb (fun ext => endsWith (toLowerCase path) ext) execExtensions)
  else
    let! permissions :=
      Deno_permissions_querySync {| permName := "run"; command := PathString path |} in
    if negb (stateIsGranted (state permissions)) then ret false
    else
      let! output := Deno_Command_outputSync "test" ["-x"; path] in
      ret (code output =? 0).
End Probe.
End StringPath.

(** ** Observations on the log and on the in-memory world *)

(** The runtime calls that change the file system. *)
Definition mutating (ev : event) : bool :=
  match ev with
  | EvWriteTextFile _ _ | EvRemove _ => true
  | _ => false
  end.

(** [emits p n c]: from any state, [c] appends to the log at most [n]
    events, all satisfying [p], and leaves the earlier log in place. *)
Definition emits {h : Host} {A : Type} (p : event -> bool) (n : nat) (c : M h A) : Prop :=
  forall s : st h,
    exists evs, snd (snd (c s)) = snd s ++ evs
                /\ forallb p evs = true /\ (length evs <= n)%nat.

(** The error the catch clause makes of a runtime failure. *)
Definition classified (path : PathLike) (mode : option Z) (e : DenoError) : exn :=
  ErrorWithCause
    (match errClass e with
     | NotFound => "ENOENT: no such file or directory, access '" +:+ toString path +:+ "'"
     | _ => "EACCES: permission denied, " +:+ AccessMode2String mode
              +:+ " '" +:+ toString path +:+ "'"
     end)
    (Native e).

(** The outcome of a check whose last runtime call ended as [r]. *)
Definition settle {A : Type} (path : PathLike) (mode : option Z)
    (r : completion DenoError A) : completion exn unit :=
  match r with
  | Return _ => Return tt
  | Throw e => Throw (classified path mode e)
  end.

(** What a failed execute check of a regular file throws: the error of
    the catch clause around the error of the [X_OK] branch. *)
Definition executeDenied (path : PathLike) : exn :=
  ErrorWithCause ("EACCES: permission denied, Executable '" +:+ toString path +:+ "'")
    (Error ("EACCES: permission denied, execute '" +:+ toString path +:+ "'")).

(** Two in-memory worlds that differ at most in the entry [k], if any. *)
Definition sameExcept (k : option string) (w w' : MemWorld) : Prop :=
  cwd w' = cwd w
  /\ clock w' = clock w
  /\ runPermission w' = runPermission w
  /\ testInstalled w' = testInstalled w
  /\ forall j, Some j <> k -> files w' !! j = files w !! j.

(** The entry the scratch path of a check would be created under, when
    the path leads to one. *)
Definition scratchTarget (w : MemWorld) (path : PathLike) : option string :=
  match locate w (tempPathOf path (clock w)) with
  | Return (dir, name) => Some (child dir name)
  | Throw _ => None
  end.

(** A computation that leaves the in-memory world as it is. *)
Definition readonly {os : string} {A : Type} (c : M (memHost os) A) : Prop :=
  forall (w : MemWorld) (log : list event), fst (snd (c (w, log))) = w.

(** * Properties *)

(** ** Stepping the monad *)

Section Steps.
Context {h : Host}.

Lemma prim_return {A} ev (f : world h -> completion DenoError A * world h) s a w' :
  f (fst s) = (Return a, w') ->
  prim ev f s = (Return a, (w', snd s ++ [ev])).
Proof. intros Hf. unfold prim. now rewrite Hf. Qed.

Lemma prim_throw {A} ev (f : world h -> completion DenoError A * world h) s e w' :
  f (fst s) = (Throw e, w') ->
  prim ev f s = (Throw (Native e), (w', snd s ++ [ev])).
Proof. intros Hf. unfold prim. now rewrite Hf. Qed.

Lemma bind_return {A B} (c : M h A) (k : A -> M h B) s a s' :
  c s = (Return a, s') -> bind c k s = k a s'.
Proof. intros Hc. unfold bind. now rewrite Hc. Qed.

Lemma bind_throw {A B} (c : M h A) (k : A -> M h B) s e s' :
  c s = (Throw e, s') -> bind c k s = (Throw e, s').
Proof. intros Hc. unfold bind. now rewrite Hc. Qed.

Lemma tryCatch_return {A} (body : M h A) handler s a s' :
  body s = (Return a, s') -> tryCatch body handler s = (Return a, s').
Proof. intros Hb. unfold tryCatch. now rewrite Hb. Qed.

Lemma tryCatch_throw {A} (body : M h A) handler s e s' :
  body s = (Throw e, s') -> tryCatch body handler s = handler e s'.
Proof. intros Hb. unfold tryCatch. now rewrite Hb. Qed.

(** A primitive always appends exactly its own event. *)
Lemma prim_cases {A} ev (f : world h -> completion DenoError A * world h) s :
  (exists a w', f (fst s) = (Return a, w')
                /\ prim ev f s = (Return a, (w', snd s ++ [ev])))
  \/ (exists e w', f (fst s) = (Throw e, w')
                   /\ prim ev f s = (Throw (Native e), (w', snd s ++ [ev]))).
Proof.
  unfold prim. destruct (f (fst s)) as [[a|e] w'] eqn:Hf.
  - left. now exists a, w'.
  - right. now exists e, w'.
Qed.
End Steps.

(** ** The two calling conventions *)

Section Conventions.
Context {h : Host}.

Lemma isExecutable_eq (path : PathLike) (s : st h) :
  isExecutable path s = isExecutableSync path s.
Proof. reflexivity. Qed.

Lemma asyncIteratorNext_discard (path : PathLike) (s : st h) :
  bind (await (asyncIteratorNext (Deno_readDir path))) (fun _ => ret tt) s
  = bind (Deno_readDirSync path) (fun entries => let _ := iteratorNext entries in ret tt) s.
Proof.
  unfold await, asyncIteratorNext, promiseThen, bind, Deno_readDir, Deno_readDirSync.
  destruct (prim (EvReadDir path) (host_readDir h path) s) as [[entries|e] s']; reflexivity.
Qed.

Lemma accessBody_eq (path : PathLike) (mode : option Z) (s : st h) :
  accessBody path mode s = accessSyncBody path mode s.
Proof.
  unfold accessBody, accessSyncBody, await.
  change (@Deno_stat h path) with (@Deno_statSync h path).
  destruct (Deno_statSync path s) as [[info|e] s'] eqn:Hstat.
  - rewrite !(bind_return _ _ _ _ _ Hstat).
    destruct mode as [m|]; [|reflexivity].
    cbv zeta.
    destruct (m =? AccessMode.R_OK); [|destruct (m =? AccessMode.W_OK);
      [|destruct (m =? AccessMode.X_OK)]];
      destruct (isFile info), (isDirectory info);
      try reflexivity; apply asyncIteratorNext_discard.
  - now rewrite !(bind_throw _ _ _ _ _ Hstat).
Qed.

Lemma access_eq (path : PathLike) (mode : option Z) (s : st h) :
  access path mode s = accessSync path mode s.
Proof.
  unfold access, accessSync, tryCatch. now rewrite accessBody_eq.
Qed.
End Conventions.

(** ** The catch clause *)

Lemma AccessMode2String_modeName (mode : option Z) :
  AccessMode2String mode = modeName mode.
Proof.
  destruct mode as [m|]; [|reflexivity].
  unfold AccessMode2String, modeName, AccessMode.F_OK, AccessMode.R_OK,
    AccessMode.W_OK, AccessMode.X_OK.
  destruct m as [|p|p]; try reflexivity.
  destruct p as [[[]|[]|]|[[]|[]|]|]; reflexivity.
Qed.

Lemma modeName_undefined (m : Z) : ~ definedMode m -> modeName (Some m) = "".
Proof.
  intros Hm. unfold definedMode, AccessMode.F_OK, AccessMode.R_OK,
    AccessMode.W_OK, AccessMode.X_OK in Hm.
  destruct m as [|p|p]; try reflexivity; [tauto|].
  destruct p as [[[]|[]|]|[[]|[]|]|]; try reflexivity; exfalso; apply Hm; auto.
Qed.

Section Catch.
Context {h : Host}.

Lemma accessCatch_NotFound (path : PathLike) (mode : option Z) (e : exn) (s : st h) :
  instanceofNotFound e = true ->
  accessCatch path mode e s = (Throw (ErrorWithCause (enoentMessage path) e), s).
Proof. intros He. unfold accessCatch. now rewrite He. Qed.

Lemma accessCatch_other (path : PathLike) (mode : option Z) (e : exn) (s : st h) :
  instanceofNotFound e = false ->
  accessCatch path mode e s = (Throw (ErrorWithCause (eaccesMessage path mode) e), s).
Proof.
  intros He. unfold accessCatch, eaccesMessage.
  now rewrite He, AccessMode2String_modeName.
Qed.

(** Whatever the check throws wraps what its [try] block threw. *)
Lemma accessSync_throws_wrapped (path : PathLike) (mode : option Z) (s s' : st h) (x : exn) :
  accessSync path mode s = (Throw x, s') ->
  exists message e,
    x = ErrorWithCause message e /\ accessSyncBody path mode s = (Throw e, s').
Proof.
  unfold accessSync, tryCatch.
  destruct (accessSyncBody path mode s) as [[[]|e] s1]; [discriminate|].
  unfold accessCatch. destruct (instanceofNotFound e); unfold throw;
    intros [= <- <-]; eauto.
Qed.
End Catch.

(** ** Outcomes and their classification *)

Section Outcomes.
Context (h : Host).

(** C2. When the path does not exist (stat fails with a not-found
    error), the check fails for every mode, present or omitted, in both
    calling conventions: the error carries the message
    [ENOENT: no such file or directory, access '<path>'] and the stat
    failure as its cause, and nothing but the stat was attempted. *)
Theorem access_missing_path_ENOENT
    (path : PathLike) (mode : option Z) (s : st h) (e : DenoError) (w' : world h) :
  host_stat h path (fst s) = (Throw e, w') ->
  errClass e = NotFound ->
  let failure :=
    (Throw (ErrorWithCause
              ("ENOENT: no such file or directory, access '" +:+ toString path +:+ "'")
              (Native e)),
     (w', snd s ++ [EvStat path])) in
  accessSync path mode s = failure /\ access path mode s = failure.
Proof.
  intros Hstat Hclass failure.
  cut (accessSync path mode s = failure);
    [intros Hsync; split; [exact Hsync | now rewrite access_eq]|].
  unfold accessSync, failure.
  rewrite (tryCatch_throw _ _ s (Native e) (w', snd s ++ [EvStat path])).
  - apply accessCatch_NotFound. destruct e as [c msg]. simpl in *. now subst c.
  - unfold accessSyncBody. apply bind_throw. now apply prim_throw.
Qed.

(** C4. When stat succeeds, a check for existence, with the mode
    omitted, or with a value that is none of the four constants, calls
    no primitive after the stat and succeeds, whatever the stat
    reported; a value outside the constants gives the very outcome of
    an omitted mode. *)
Theorem access_existence_only
    (path : PathLike) (mode : option Z) (s : st h) (info : FileInfo) (w' : world h) :
  host_stat h path (fst s) = (Return info, w') ->
  existenceOnly mode ->
  accessSync path mode s = (Return tt, (w', snd s ++ [EvStat path]))
  /\ access path mode s = (Return tt, (w', snd s ++ [EvStat path]))
  /\ accessSync path mode s = accessSync path None s.
Proof.
  intros Hstat Hmode.
  assert (Hsync : forall mode', existenceOnly mode' ->
            accessSync path mode' s = (Return tt, (w', snd s ++ [EvStat path]))).
  { intros mode' Hmode'. unfold accessSync. apply tryCatch_return.
    unfold accessSyncBody.
    rewrite (bind_return _ _ s info (w', snd s ++ [EvStat path]))
      by now apply prim_return.
    destruct Hmode' as [-> | [-> | (m & -> & Hm)]]; try reflexivity.
    cbv zeta.
    destruct (Z.eqb_spec m AccessMode.R_OK) as [->|_];
      [exfalso; apply Hm; right; now left|].
    destruct (Z.eqb_spec m AccessMode.W_OK) as [->|_];
      [exfalso; apply Hm; right; right; now left|].
    destruct (Z.eqb_spec m AccessMode.X_OK) as [->|_];
      [exfalso; apply Hm; right; right; now right|].
    reflexivity. }
  repeat split.
  - now apply Hsync.
  - rewrite access_eq. now apply Hsync.
  - rewrite (Hsync mode Hmode). symmetry. apply Hsync. now left.
Qed.

(** C10. When stat reports neither a regular file nor a directory, the
    check succeeds for every mode, in both calling conventions, and
    calls no primitive after the stat. *)
Theorem access_other_kind_succeeds
    (path : PathLike) (mode : option Z) (s : st h) (info : FileInfo) (w' : world h) :
  host_stat h path (fst s) = (Return info, w') ->
  isFile info = false ->
  isDirectory info = false ->
  accessSync path mode s = (Return tt, (w', snd s ++ [EvStat path]))
  /\ access path mode s = (Return tt, (w', snd s ++ [EvStat path])).
Proof.
  intros Hstat Hfile Hdir.
  assert (Hsync : accessSync path mode s = (Return tt, (w', snd s ++ [EvStat path]))).
  { unfold accessSync. apply tryCatch_return. unfold accessSyncBody.
    rewrite (bind_return _ _ s info (w', snd s ++ [EvStat path]))
      by now apply prim_return.
    destruct mode as [m|]; [|reflexivity].
    cbv zeta. rewrite Hfile, Hdir.
    now destruct (m =? AccessMode.R_OK), (m =? AccessMode.W_OK), (m =? AccessMode.X_OK). }
  split; [exact Hsync | now rewrite access_eq].
Qed.

(** C3. Whenever the [try] block of the check fails with anything but
    a not-found error, the check fails, in both calling conventions,
    with the message [EACCES: permission denied, <mode-name> '<path>'],
    the mode name being Exists, Readable, Writable, Executable for the
    four constants and empty otherwise, and with that very failure as
    the cause of the error; and every error the check throws, of either
    classification, has as its cause what the [try] block threw. *)
Theorem access_failure_normalized
    (path : PathLike) (mode : option Z) (s s' : st h) (e : exn) :
  accessSyncBody path mode s = (Throw e, s') ->
  instanceofNotFound e = false ->
  let failure :=
    (Throw (ErrorWithCause
              ("EACCES: permission denied, " +:+ modeName mode
                 +:+ " '" +:+ toString path +:+ "'")
              e),
     s') in
  accessSync path mode s = failure
  /\ access path mode s = failure
  /\ modeName (Some AccessMode.F_OK) = "Exists"
  /\ modeName (Some AccessMode.R_OK) = "Readable"
  /\ modeName (Some AccessMode.W_OK) = "Writable"
  /\ modeName (Some AccessMode.X_OK) = "Executable"
  /\ modeName None = ""
  /\ (forall m, ~ definedMode m -> modeName (Some m) = "")
  /\ (forall (t t' : st h) (x : exn),
        accessSync path mode t = (Throw x, t') ->
        exists message cause,
          x = ErrorWithCause message cause
          /\ accessSyncBody path mode t = (Throw cause, t')).
Proof.
  intros Hbody He failure.
  assert (Hsync : accessSync path mode s = failure).
  { unfold accessSync. rewrite (tryCatch_throw _ _ _ _ _ Hbody).
    now apply accessCatch_other. }
  split; [exact Hsync | split; [now rewrite access_eq|]].
  repeat (split; [reflexivity|]).
  split; [apply modeName_undefined|].
  intros t t' x. apply accessSync_throws_wrapped.
Qed.

(** C8. For every path, mode and state of the world, [access] and
    [accessSync] produce the same outcome, the same error value and the
    same sequence of primitive calls, and so do [isExecutable] and
    [isExecutableSync]. *)
Theorem conventions_agree (path : PathLike) (mode : option Z) (s : st h) :
  access path mode s = accessSync path mode s
  /\ isExecutable path s = isExecutableSync path s.
Proof. split; [apply access_eq | apply isExecutable_eq]. Qed.
End Outcomes.

(** ** The lexical test *)

Lemma substring_all (s : string) : substring 0 (String.length s) s = s.
Proof. induction s as [|c s IH]; simpl; [reflexivity | now rewrite IH]. Qed.

Lemma substring_skip (p s : string) (n : nat) :
  substring (String.length p) n (p +:+ s) = substring 0 n s.
Proof. induction p as [|c p IH]; simpl; [reflexivity | exact IH]. Qed.

Lemma length_app (p s : string) :
  String.length (p +:+ s) = (String.length p + String.length s)%nat.
Proof. induction p as [|c p IH]; simpl; [reflexivity | now rewrite IH]. Qed.

(** Cutting a string at a position inside it. *)
Lemma substring_split (s : string) (n : nat) :
  (n <= String.length s)%nat ->
  s = substring 0 n s +:+ substring n (String.length s - n) s.
Proof.
  revert n. induction s as [|c s IH]; intros n Hn; simpl in *.
  - now destruct n.
  - destruct n as [|n]; simpl.
    + now rewrite substring_all.
    + change (String c s
              = String c (substring 0 n s +:+ substring n (String.length s - n) s)).
      f_equal. apply IH. lia.
Qed.

Lemma endsWith_iff (s x : string) :
  endsWith s x = true <-> exists p, s = p +:+ x.
Proof.
  unfold endsWith. split.
  - destruct (Nat.ltb_spec (String.length s) (String.length x)) as [|Hle];
      [discriminate|].
    intros Heq. apply String.eqb_eq in Heq.
    exists (substring 0 (String.length s - String.length x) s).
    pose proof (substring_split s (String.length s - String.length x)) as Hcut.
    replace (String.length s - (String.length s - String.length x))%nat
      with (String.length x) in Hcut by lia.
    rewrite Heq in Hcut. apply Hcut. lia.
  - intros [p ->]. rewrite length_app.
    destruct (Nat.ltb_spec (String.length p + String.length x) (String.length x));
      [lia|].
    replace (String.length p + String.length x - String.length x)%nat
      with (String.length p) by lia.
    rewrite substring_skip, substring_all. apply String.eqb_refl.
Qed.

Lemma toLowerCase_app (p s : string) :
  toLowerCase (p +:+ s) = toLowerCase p +:+ toLowerCase s.
Proof. induction p as [|c p IH]; simpl; [reflexivity | now rewrite IH]. Qed.

Lemma toLowerCase_split (s a b : string) :
  toLowerCase s = a +:+ b ->
  exists p q, s = p +:+ q /\ toLowerCase p = a /\ toLowerCase q = b.
Proof.
  revert s. induction a as [|c a IH]; intros s Hs; simpl in Hs.
  - now exists EmptyString, s.
  - destruct s as [|d s]; simpl in Hs; [discriminate|].
    injection Hs as Hc Hrest.
    destruct (IH s Hrest) as (p & q & -> & Hp & Hq).
    exists (String d p), q. simpl. now rewrite Hc, Hp.
Qed.

Lemma execExtension_test (s : string) :
  existsb (fun ext => endsWith (toLowerCase s) ext) execExtensions = true
  <-> hasExecExtension s.
Proof.
  rewrite existsb_exists. unfold hasExecExtension. split.
  - intros (ext & Hin & Hends). apply endsWith_iff in Hends as [a Ha].
    destruct (toLowerCase_split _ _ _ Ha) as (p & q & -> & _ & Hq).
    exists ext, p, q. split; [now apply list_elem_of_In | easy].
  - intros (ext & p & q & Hin & -> & Hq).
    exists ext. split; [now apply list_elem_of_In|].
    apply endsWith_iff. exists (toLowerCase p).
    now rewrite toLowerCase_app, Hq.
Qed.

(** ** The execute-permission probe *)

Section ExecuteProbe.
Context (h : Host).


(** Every error leaving the probe is the failure of one of its three
    primitives. *)
Lemma isExecutableSync_throws_native (path : PathLike) (s s' : st h) (x : exn) :
  isExecutableSync path s = (Throw x, s') ->
  exists e w w',
    x = Native e
    /\ (host_stat h path w = (Throw e, w')
        \/ host_query h {| permName := "run"; command := path |} w = (Throw e, w')
        \/ host_output h "test" ["-x"; toString path] w = (Throw e, w')).
Proof.
  unfold isExecutableSync, Deno_statSync, Deno_permissions_querySync,
    Deno_Command_outputSync.
  destruct (prim_cases (EvStat path) (host_stat h path) s)
    as [(info & w1 & Hst & Hp) | (e & w1 & Hst & Hp)].
  - rewrite (bind_return _ _ _ _ _ Hp).
    destruct (negb (isFile info)); [discriminate|].
    destruct (String.eqb (build_os h) "windows"); [discriminate|].
    set (s1 := (w1, snd s ++ [EvStat path])).
    destruct (prim_cases (EvQuery {| permName := "run"; command := path |})
                (host_query h {| permName := "run"; command := path |}) s1)
      as [(status & w2 & Hq & Hpq) | (e & w2 & Hq & Hpq)].
    + rewrite (bind_return _ _ _ _ _ Hpq).
      destruct (negb (stateIsGranted (state status))); [discriminate|].
      set (s2 := (w2, snd s1 ++ [EvQuery {| permName := "run"; command := path |}])).
      destruct (prim_cases (EvOutput "test" ["-x"; toString path])
                  (host_output h "test" ["-x"; toString path]) s2)
        as [(out & w3 & Ho & Hpo) | (e & w3 & Ho & Hpo)].
      * rewrite (bind_return _ _ _ _ _ Hpo). discriminate.
      * rewrite (bind_throw _ _ _ _ _ Hpo). intros [= <- <-].
        exists e, (fst s2), w3. eauto.
    + rewrite (bind_throw _ _ _ _ _ Hpq). intros [= <- <-].
      exists e, (fst s1), w2. eauto.
  - rewrite (bind_throw _ _ _ _ _ Hp). intros [= <- <-].
    exists e, (fst s), w1. eauto.
Qed.


(** C6. On a platform other than Windows and for a path that stat
    reports as a regular file, the probe queries the [run] permission
    for the path; when the state is not [granted] it returns [false]
    without spawning anything; when it is [granted] it runs
    [test -x <path>] and returns [true] exactly when the exit code is 0.
    Both forms of the probe do so. *)
Theorem isExecutable_posix
    (path : PathLike) (s : st h) (info : FileInfo) (w1 w2 : world h)
    (status : PermissionStatus) :
  build_os h <> "windows" ->
  host_stat h path (fst s) = (Return info, w1) ->
  isFile info = true ->
  host_query h {| permName := "run"; command := path |} w1 = (Return status, w2) ->
  let queried :=
    snd s ++ [EvStat path; EvQuery {| permName := "run"; command := path |}] in
  (state status <> granted ->
     isExecutableSync path s = (Return false, (w2, queried)))
  /\ (state status = granted ->
      forall out w3,
        host_output h "test" ["-x"; toString path] w2 = (Return out, w3) ->
        exists b,
          isExecutableSync path s
            = (Return b, (w3, queried ++ [EvOutput "test" ["-x"; toString path]]))
          /\ (b = true <-> code out = 0))
  /\ isExecutable path s = isExecutableSync path s.
Proof.
  intros Hos Hstat Hfile Hquery queried.
  assert (Hhead :
            isExecutableSync path s
            = (if negb (stateIsGranted (state status)) then ret false
               else
                 let! output := Deno_Command_outputSync "test" ["-x"; toString path] in
                 ret (code output =? 0)) (w2, queried)).
  { unfold isExecutableSync.
    rewrite (bind_return _ _ s info (w1, snd s ++ [EvStat path]))
      by now apply prim_return.
    apply String.eqb_neq in Hos. rewrite Hfile, Hos.
    change (negb true) with false. cbv iota.
    rewrite (bind_return _ _ _ status
               (w2, (snd s ++ [EvStat path])
                      ++ [EvQuery {| permName := "run"; command := path |}]))
      by now apply prim_return.
    unfold queried. now rewrite <- app_assoc. }
  split; [|split; [|apply isExecutable_eq]].
  - intros Hstate. rewrite Hhead.
    destruct (state status); [congruence | reflexivity | reflexivity].
  - intros Hstate out w3 Hout. exists (code out =? 0). split.
    + rewrite Hhead, Hstate.
      change (negb (stateIsGranted granted)) with false. cbv iota.
      now rewrite (bind_return _ _ _ out
                     (w3, queried ++ [EvOutput "test" ["-x"; toString path]]))
        by now apply prim_return.
    + apply Z.eqb_eq.
Qed.

(** C7, as the code has it.  On Windows the probe first stats the path
    (its only primitive call: no permission query, no subprocess); when
    the stat succeeds it returns [true] exactly when the stat reports a
    regular file and the path string ends, up to letter case, with
    [.exe], [.cmd], [.bat] or [.com]. *)
Theorem isExecutable_windows
    (path : PathLike) (s : st h) (info : FileInfo) (w1 : world h) :
  build_os h = "windows" ->
  host_stat h path (fst s) = (Return info, w1) ->
  exists b,
    isExecutableSync path s = (Return b, (w1, snd s ++ [EvStat path]))
    /\ isExecutable path s = (Return b, (w1, snd s ++ [EvStat path]))
    /\ (b = true <-> isFile info = true /\ hasExecExtension (toString path)).
Proof.
  intros Hos Hstat.
  exists (isFile info
          && existsb (fun ext => endsWith (toLowerCase (toString path)) ext) execExtensions).
  assert (Hrun : isExecutableSync path s
                 = (Return (isFile info
                            && existsb (fun ext => endsWith (toLowerCase (toString path)) ext)
                                 execExtensions),
                    (w1, snd s ++ [EvStat path]))).
  { unfold isExecutableSync.
    rewrite (bind_return _ _ s info (w1, snd s ++ [EvStat path]))
      by now apply prim_return.
    destruct (isFile info); [|reflexivity].
    change (negb true) with false. cbv iota. now rewrite Hos. }
  split; [exact Hrun | split; [now rewrite isExecutable_eq|]].
  rewrite andb_true_iff, execExtension_test. reflexivity.
Qed.
End ExecuteProbe.

(** ** The check against the resolver table *)

Section ResolverTable.
Context (h : Host).

Lemma bind_ext {A B} (c : M h A) (k k' : A -> M h B) (s : st h) :
  (forall a s', k a s' = k' a s') -> bind c k s = bind c k' s.
Proof.
  intros Hk. unfold bind. destruct (c s) as [[a|e] s']; [apply Hk | reflexivity].
Qed.

Lemma accessSyncBody_table (path : PathLike) (m : Z) (s : st h) (info : FileInfo)
    (w1 : world h) (kind : TargetKind) :
  host_stat h path (fst s) = (Return info, w1) ->
  kindOf info = Some kind ->
  accessSyncBody path (Some m) s
  = runProbe (resolverTable kind m) path (w1, snd s ++ [EvStat path]).
Proof.
  intros Hstat. unfold accessSyncBody.
  rewrite (bind_return _ _ s info (w1, snd s ++ [EvStat path]))
    by now apply prim_return.
  unfold kindOf, resolverTable. cbv zeta.
  destruct (isFile info), (isDirectory info); intros [= <-];
    destruct (m =? AccessMode.R_OK); try reflexivity;
    destruct (m =? AccessMode.W_OK); try reflexivity;
    destruct (m =? AccessMode.X_OK); try reflexivity.
  unfold runProbe. apply bind_ext. now intros [] s'.
Qed.

(** The directory write check, step by step, on any runtime. *)
Lemma accessSync_directory_write_steps
    (path : PathLike) (s : st h) (info : FileInfo) (w1 w2 w3 w4 : world h) (t : Z) :
  host_stat h path (fst s) = (Return info, w1) ->
  kindOf info = Some Directory ->
  host_now h w1 = (t, w2) ->
  host_writeTextFile h (PathString (tempPathOf path t)) "" w2 = (Return tt, w3) ->
  host_remove h (PathString (tempPathOf path t)) w3 = (Return tt, w4) ->
  accessSync path (Some AccessMode.W_OK) s
  = (Return tt,
     (w4, snd s ++ [EvStat path; EvNow;
                    EvWriteTextFile (PathString (tempPathOf path t)) "";
                    EvRemove (PathString (tempPathOf path t))])).
Proof.
  intros Hstat Hkind Hnow Hwrite Hremove.
  unfold accessSync. apply tryCatch_return.
  rewrite (accessSyncBody_table path AccessMode.W_OK s info w1 Directory Hstat Hkind).
  change (resolverTable Directory AccessMode.W_OK) with ScratchCreateDelete.
  unfold runProbe, Date_now, bind at 1. simpl fst. simpl snd. rewrite Hnow.
  rewrite (bind_return _ _ _ tt
             (w3, ((snd s ++ [EvStat path]) ++ [EvNow])
                    ++ [EvWriteTextFile (PathString (tempPathOf path t)) ""]))
    by now apply prim_return.
  unfold Deno_removeSync.
  rewrite (prim_return _ _ _ tt w4) by exact Hremove.
  simpl snd. now rewrite <- !app_assoc.
Qed.

(** The check as a refinement of the resolver table.  For a path that
    stat reports as a regular file or as a
    directory, and for every mode, both calling conventions run, after
    the stat, exactly the probe of the resolver table and pass any
    failure to the catch clause: reading a file opens it for reading and
    closes it, reading a directory reads the directory and takes one
    entry, writing a file opens it for writing and closes it, executing
    a directory does what reading it does, and executing a file runs the
    execute-permission probe; when that probe returns a boolean, the
    check succeeds if it is [true] and raises permission-denied if it is
    [false], and the check fails with the error of the execute branch as
    its cause exactly when the probe returned [false]. *)
Theorem access_follows_resolver_table
    (path : PathLike) (m : Z) (s : st h) (info : FileInfo) (w1 : world h)
    (kind : TargetKind) :
  host_stat h path (fst s) = (Return info, w1) ->
  kindOf info = Some kind ->
  let s1 := (w1, snd s ++ [EvStat path]) in
  accessSync path (Some m) s
    = tryCatch (runProbe (resolverTable kind m) path) (accessCatch path (Some m)) s1
  /\ access path (Some m) s = accessSync path (Some m) s
  /\ accessCheck path m s = accessSync path (Some m) s
  /\ resolverTable File AccessMode.R_OK = OpenForReading
  /\ resolverTable Directory AccessMode.R_OK = EnumerateOne
  /\ resolverTable File AccessMode.W_OK = OpenForWriting
  /\ resolverTable File AccessMode.X_OK = ExecutePermission
  /\ resolverTable Directory AccessMode.X_OK = resolverTable Directory AccessMode.R_OK
  /\ (kind = File ->
      forall (b : bool) (s2 : st h),
        isExecutableSync path s1 = (Return b, s2) ->
        accessSync path (Some AccessMode.X_OK) s
        = (if b then Return tt
           else Throw (ErrorWithCause
                         ("EACCES: permission denied, Executable '" +:+ toString path +:+ "'")
                         (Error ("EACCES: permission denied, execute '"
                                   +:+ toString path +:+ "'"))),
           s2))
  /\ (kind = File ->
      forall s2 : st h,
        accessSync path (Some AccessMode.X_OK) s
          = (Throw (ErrorWithCause
                      ("EACCES: permission denied, Executable '" +:+ toString path +:+ "'")
                      (Error ("EACCES: permission denied, execute '"
                                +:+ toString path +:+ "'"))),
             s2)
        <-> isExecutableSync path s1 = (Return false, s2)).
Proof.
  intros Hstat Hkind s1.
  assert (Hstep : forall m',
            accessSync path (Some m') s
            = tryCatch (runProbe (resolverTable kind m') path)
                (accessCatch path (Some m')) s1).
  { intros m'. unfold accessSync, tryCatch.
    now rewrite (accessSyncBody_table path m' s info w1 kind Hstat Hkind). }
  split; [apply Hstep|]. split; [apply access_eq|]. split.
  { rewrite Hstep. unfold accessCheck, tryCatch at 1.
    rewrite (bind_return _ _ s info s1) by now apply prim_return.
    now rewrite Hkind. }
  repeat (split; [reflexivity|]).
  assert (Hreturned : forall (b : bool) (s2 : st h),
            isExecutableSync path s1 = (Return b, s2) ->
            tryCatch (runProbe ExecutePermission path)
              (accessCatch path (Some AccessMode.X_OK)) s1
            = (if b then Return tt
               else Throw (ErrorWithCause
                             ("EACCES: permission denied, Executable '"
                                +:+ toString path +:+ "'")
                             (Error ("EACCES: permission denied, execute '"
                                       +:+ toString path +:+ "'"))),
               s2)).
  { intros b s2 Hprobe. unfold tryCatch, runProbe.
    rewrite (bind_return _ _ _ _ _ Hprobe).
    destruct b; [reflexivity|].
    unfold throw. now rewrite accessCatch_other. }
  split.
  - intros -> b s2 Hprobe. rewrite Hstep. now apply Hreturned.
  - intros -> s2. rewrite Hstep.
    change (resolverTable File AccessMode.X_OK) with ExecutePermission.
    split.
    + pose proof Hreturned as Hcase.
      destruct (isExecutableSync path s1) as [[[]|x] s2'] eqn:Hprobe.
      * rewrite (Hcase true s2' eq_refl). discriminate.
      * rewrite (Hcase false s2' eq_refl). now intros [= <-].
      * clear Hcase. destruct (isExecutableSync_throws_native h path s1 s2' x Hprobe)
          as (e & _ & _ & -> & _).
        unfold tryCatch, runProbe. rewrite (bind_throw _ _ _ _ _ Hprobe).
        unfold accessCatch, throw.
        destruct (instanceofNotFound (Native e)); discriminate.
    + intros Hprobe. now rewrite (Hreturned false s2 Hprobe).
Qed.

Lemma accessCatch_native (path : PathLike) (mode : option Z) (e : DenoError) (s' : st h) :
  accessCatch path mode (Native e) s' = (Throw (classified path mode e), s').
Proof.
  unfold accessCatch, classified, instanceofNotFound. destruct e as [[] msg]; reflexivity.
Qed.

Lemma accessSync_open_close (path : PathLike) (m : Z) (s : st h) (info : FileInfo)
    (w1 : world h) :
  host_stat h path (fst s) = (Return info, w1) ->
  isFile info = true ->
  m = AccessMode.R_OK \/ m = AccessMode.W_OK ->
  let options := {| read := m =? AccessMode.R_OK; write := m =? AccessMode.W_OK |} in
  let log1 := snd s ++ [EvStat path] in
  accessSync path (Some m) s
  = match host_open h path options w1 with
    | (Throw e, w2) =>
        (Throw (classified path (Some m) e), (w2, log1 ++ [EvOpen path options]))
    | (Return file, w2) =>
        (settle path (Some m) (fst (host_close h file w2)),
         (snd (host_close h file w2), log1 ++ [EvOpen path options; EvClose file]))
    end.
Proof.
  intros Hstat Hfile Hm options log1. unfold accessSync, tryCatch, accessSyncBody.
  rewrite (bind_return _ _ s info (w1, log1)) by now apply prim_return.
  cbv zeta. rewrite Hfile.
  assert (Hrun : forall opts,
            tryCatch (let! file := Deno_openSync path opts in FsFile_close file)
              (accessCatch path (Some m)) (w1, log1)
            = match host_open h path opts w1 with
              | (Throw e, w2) =>
                  (Throw (classified path (Some m) e), (w2, log1 ++ [EvOpen path opts]))
              | (Return file, w2) =>
                  (settle path (Some m) (fst (host_close h file w2)),
                   (snd (host_close h file w2), log1 ++ [EvOpen path opts; EvClose file]))
              end).
  { intros opts. unfold tryCatch, bind, Deno_openSync, FsFile_close, prim. simpl fst. simpl snd.
    destruct (host_open h path opts w1) as [[file|e] w2]; [|apply accessCatch_native].
    simpl fst. simpl snd.
    destruct (host_close h file w2) as [[[]|e] w3]; simpl.
    - now rewrite <- app_assoc.
    - rewrite accessCatch_native. now rewrite <- app_assoc. }
  unfold tryCatch in Hrun.
  destruct Hm as [-> | ->]; subst options;
    cbv beta iota delta [AccessMode.R_OK AccessMode.W_OK Z.eqb Pos.eqb]; apply Hrun.
Qed.

Lemma accessSync_enumerate (path : PathLike) (m : Z) (s : st h) (info : FileInfo)
    (w1 : world h) :
  host_stat h path (fst s) = (Return info, w1) ->
  isFile info = false ->
  isDirectory info = true ->
  m = AccessMode.R_OK \/ m = AccessMode.X_OK ->
  accessSync path (Some m) s
  = (settle path (Some m) (fst (host_readDir h path w1)),
     (snd (host_readDir h path w1), snd s ++ [EvStat path; EvReadDir path])).
Proof.
  intros Hstat Hfile Hdir Hm. unfold accessSync, tryCatch.
  rewrite (accessSyncBody_table path m s info w1 Directory Hstat)
    by (unfold kindOf; now rewrite Hfile, Hdir).
  assert (Hprobe : resolverTable Directory m = EnumerateOne) by now destruct Hm as [-> | ->].
  rewrite Hprobe. unfold runProbe, bind, Deno_readDirSync, prim. simpl fst. simpl snd.
  destruct (host_readDir h path w1) as [[entries|e] w2]; simpl.
  - now rewrite <- app_assoc.
  - rewrite accessCatch_native. now rewrite <- app_assoc.
Qed.

Lemma accessSync_execute_probe (path : PathLike) (s : st h) (info : FileInfo) (w1 : world h) :
  host_stat h path (fst s) = (Return info, w1) ->
  isFile info = true ->
  isDirectory info = false ->
  accessSync path (Some AccessMode.X_OK) s
  = match isExecutableSync path (w1, snd s ++ [EvStat path]) with
    | (Return true, s2) => (Return tt, s2)
    | (Return false, s2) => (Throw (executeDenied path), s2)
    | (Throw x, s2) =>
        (Throw (ErrorWithCause
                  (if instanceofNotFound x then
                     "ENOENT: no such file or directory, access '" +:+ toString path +:+ "'"
                   else
                     "EACCES: permission denied, Executable '" +:+ toString path +:+ "'")
                  x),
         s2)
    end.
Proof.
  intros Hstat Hfile Hdir. unfold accessSync, tryCatch.
  rewrite (accessSyncBody_table path AccessMode.X_OK s info w1 File Hstat)
    by (unfold kindOf; now rewrite Hfile, Hdir).
  change (resolverTable File AccessMode.X_OK) with ExecutePermission.
  unfold runProbe, bind.
  destruct (isExecutableSync path (w1, snd s ++ [EvStat path])) as [[[]|x] s2].
  - reflexivity.
  - unfold throw, executeDenied. now rewrite accessCatch_other.
  - unfold accessCatch, throw. now destruct (instanceofNotFound x).
Qed.

(** C1, as the code has it.  For a path whose stat succeeds, both
    calling conventions run, after the stat, the probe of the resolver
    table, and the catch clause classifies any failure of it.  Reading a
    regular file opens the path for reading and, when the open succeeds,
    closes the handle at once; writing a regular file does the same with
    an open for writing; reading a directory reads the directory once
    and takes one entry, and executing a directory does exactly that
    too.  Executing a regular file runs the execute-permission probe:
    the check succeeds when the probe returns [true] and raises
    permission-denied when it returns [false]; when the probe itself
    fails, the check raises not-found for a not-found failure and
    permission-denied for any other, with that failure as cause.  So the
    check raises permission-denied exactly when the probe returns
    [false] or fails with something other than not-found. *)
Theorem access_probe_by_cell
    (path : PathLike) (s : st h) (info : FileInfo) (w1 : world h) :
  host_stat h path (fst s) = (Return info, w1) ->
  let log1 := snd s ++ [EvStat path] in
  let openAndClose (mode : Z) (options : OpenOptions) :=
    accessSync path (Some mode) s
    = match host_open h path options w1 with
      | (Throw e, w2) =>
          (Throw (classified path (Some mode) e), (w2, log1 ++ [EvOpen path options]))
      | (Return file, w2) =>
          (settle path (Some mode) (fst (host_close h file w2)),
           (snd (host_close h file w2), log1 ++ [EvOpen path options; EvClose file]))
      end in
  let enumerate (mode : Z) :=
    accessSync path (Some mode) s
    = (settle path (Some mode) (fst (host_readDir h path w1)),
       (snd (host_readDir h path w1), log1 ++ [EvReadDir path])) in
  let probe := isExecutableSync path (w1, log1) in
  (isFile info = true ->
     openAndClose AccessMode.R_OK {| read := true; write := false |}
     /\ openAndClose AccessMode.W_OK {| read := false; write := true |})
  /\ (isFile info = false -> isDirectory info = true ->
      enumerate AccessMode.R_OK /\ enumerate AccessMode.X_OK)
  /\ (isFile info = true -> isDirectory info = false ->
      accessSync path (Some AccessMode.X_OK) s
      = match probe with
        | (Return true, s2) => (Return tt, s2)
        | (Return false, s2) => (Throw (executeDenied path), s2)
        | (Throw x, s2) =>
            (Throw (ErrorWithCause
                      (if instanceofNotFound x then
                         "ENOENT: no such file or directory, access '"
                           +:+ toString path +:+ "'"
                       else
                         "EACCES: permission denied, Executable '"
                           +:+ toString path +:+ "'")
                      x),
             s2)
        end)
  /\ (isFile info = true -> isDirectory info = false ->
      ((exists cause s2,
          accessSync path (Some AccessMode.X_OK) s
          = (Throw (ErrorWithCause
                      ("EACCES: permission denied, Executable '" +:+ toString path +:+ "'")
                      cause),
             s2))
       <-> ((exists s2, probe = (Return false, s2))
            \/ (exists x s2, probe = (Throw x, s2) /\ instanceofNotFound x = false))))
  /\ (forall mode, access path mode s = accessSync path mode s).
Proof.
  intros Hstat log1 openAndClose enumerate probe.
  split; [|split; [|split; [|split]]].
  - intros Hfile. split.
    + apply (accessSync_open_close path AccessMode.R_OK s info w1 Hstat Hfile). now left.
    + apply (accessSync_open_close path AccessMode.W_OK s info w1 Hstat Hfile). now right.
  - intros Hfile Hdir. unfold enumerate, log1. rewrite <- !app_assoc. split.
    + apply (accessSync_enumerate path AccessMode.R_OK s info w1 Hstat Hfile Hdir). now left.
    + apply (accessSync_enumerate path AccessMode.X_OK s info w1 Hstat Hfile Hdir). now right.
  - intros Hfile Hdir. now apply (accessSync_execute_probe path s info w1).
  - intros Hfile Hdir.
    rewrite (accessSync_execute_probe path s info w1 Hstat Hfile Hdir).
    fold log1. fold probe.
    destruct probe as [[[]|x] s2].
    + split.
      * intros (cause & s3 & Heq). discriminate Heq.
      * intros [(s3 & Heq) | (x & s3 & Heq & _)]; discriminate Heq.
    + split; [intros _; left; eauto|].
      intros _. exists (Error ("EACCES: permission denied, execute '"
                                +:+ toString path +:+ "'")), s2. reflexivity.
    + destruct (instanceofNotFound x) eqn:Hnf.
      * split.
        -- intros (cause & s3 & Heq). injection Heq as Hmsg _ _. discriminate Hmsg.
        -- intros [(s3 & Heq) | (x' & s3 & Heq & Hx)]; [discriminate Heq|].
           injection Heq as <- _. congruence.
      * split; [intros _; right; eauto | intros _; eauto].
  - intros mode. apply access_eq.
Qed.
End ResolverTable.

(** ** The directory write check on the in-memory runtime *)

Lemma beforeLastSlash_uint (u : Decimal.uint) :
  beforeLastSlash (NilEmpty.string_of_uint u) = None.
Proof. induction u; simpl; try rewrite IHu; reflexivity. Qed.

Lemma beforeLastSlash_number (n : Z) : beforeLastSlash (numberToString n) = None.
Proof.
  unfold numberToString, NilZero.string_of_int, NilZero.string_of_uint.
  destruct (Z.to_int n) as [u|u]; destruct u;
    simpl; try rewrite beforeLastSlash_uint; reflexivity.
Qed.

Lemma beforeLastSlash_none_app (p rest : string) :
  beforeLastSlash p = None ->
  beforeLastSlash rest = None ->
  beforeLastSlash (p +:+ rest) = None.
Proof.
  intros Hp Hrest. induction p as [|c p IH]; [exact Hrest|].
  change (String c p +:+ rest) with (String c (p +:+ rest)).
  simpl in *. destruct (beforeLastSlash p); [discriminate|].
  rewrite IH by reflexivity. exact Hp.
Qed.

Lemma scratchSegment_noSlash (t : Z) : beforeLastSlash (scratchSegment t) = None.
Proof.
  apply beforeLastSlash_none_app; [reflexivity | apply beforeLastSlash_number].
Qed.

Lemma splitSlash_nonempty (s : string) : splitSlash s <> [].
Proof.
  induction s as [|c s IH]; simpl; [discriminate|].
  destruct (Ascii.eqb c "/"); [discriminate|].
  destruct (splitSlash s); discriminate.
Qed.

Lemma splitSlash_app (a b : string) :
  splitSlash (a +:+ String "/" b) = splitSlash a ++ splitSlash b.
Proof.
  induction a as [|c a IH]; [reflexivity|].
  change (String c a +:+ String "/" b) with (String c (a +:+ String "/" b)).
  simpl. rewrite IH. destruct (Ascii.eqb c "/"); [reflexivity|].
  pose proof (splitSlash_nonempty a) as Hne.
  destruct (splitSlash a) as [|seg rest]; [congruence | reflexivity].
Qed.

Lemma splitSlash_noSlash (s : string) : beforeLastSlash s = None -> splitSlash s = [s].
Proof.
  induction s as [|c s IH]; [reflexivity|]. simpl.
  destruct (beforeLastSlash s); [discriminate|].
  destruct (Ascii.eqb c "/"); [discriminate|].
  intros _. now rewrite IH.
Qed.

(** The scratch path is the checked path, a slash, and one more
    component. *)
Lemma tempPathOf_segment (path : PathLike) (t : Z) :
  tempPathOf path t = toString path +:+ String "/" (scratchSegment t).
Proof. reflexivity. Qed.

Lemma isSpecial_scratchSegment (t : Z) : isSpecial (scratchSegment t) = false.
Proof. reflexivity. Qed.

Lemma startOf_scratch (wd d : string) (t : Z) (from : string) (cs : list string) :
  startOf wd d = Return (from, cs) ->
  startOf wd (d +:+ String "/" (scratchSegment t)) = Return (from, cs ++ [scratchSegment t]).
Proof.
  destruct d as [|c d]; [discriminate|].
  change (String c d +:+ String "/" (scratchSegment t))
    with (String c (d +:+ String "/" (scratchSegment t))).
  unfold startOf. destruct (Ascii.eqb c "/") eqn:Hc; intros [= <- <-].
  - now rewrite splitSlash_app, (splitSlash_noSlash _ (scratchSegment_noSlash t)).
  - change (String c (d +:+ String "/" (scratchSegment t)))
      with (String c d +:+ String "/" (scratchSegment t)).
    now rewrite splitSlash_app, (splitSlash_noSlash _ (scratchSegment_noSlash t)).
Qed.

(** A path that leads to [key] puts its scratch entry directly under
    [key]. *)
Lemma locate_scratch (w : MemWorld) (d key : string) (t : Z) :
  resolveKey w d = Return key ->
  locate w (d +:+ String "/" (scratchSegment t)) = Return (key, scratchSegment t).
Proof.
  unfold resolveKey, locate.
  destruct (startOf (cwd w) d) as [[from cs]|e] eqn:Hstart; [|discriminate].
  rewrite (startOf_scratch _ _ t _ _ Hstart).
  rewrite List.last_last, List.removelast_last, isSpecial_scratchSegment.
  now intros ->.
Qed.

(** Storing a file under a key that held no directory leaves every
    successful walk as it was. *)
Lemma lookupDir_insert (fs : gmap string Node) (K cur c : string) (p q : Perms) :
  (forall p', fs !! K <> Some (DirNode p')) ->
  lookupDir fs cur = Return p ->
  lookupDir (<[K := FileNode c q]> fs) cur = Return p.
Proof.
  intros HK. unfold lookupDir. destruct (fs !! cur) as [n|] eqn:Hcur; [|discriminate].
  destruct n as [?|p'|?]; try discriminate. intros [= <-].
  rewrite lookup_insert_ne, Hcur; [reflexivity|].
  intros <-. now apply (HK p').
Qed.

Lemma enter_insert (fs : gmap string Node) (K cur c k content : string) (q : Perms) :
  (forall p', fs !! K <> Some (DirNode p')) ->
  enter fs cur c = Return k ->
  enter (<[K := FileNode content q]> fs) cur c = Return k.
Proof.
  intros HK. unfold enter, searchDir. destruct (String.eqb c "").
  - destruct (lookupDir fs cur) as [p|e] eqn:Hdir; [|discriminate].
    now rewrite (lookupDir_insert fs K cur content p q HK Hdir).
  - destruct (lookupDir fs cur) as [p|e] eqn:Hdir; [|discriminate].
    rewrite (lookupDir_insert fs K cur content p q HK Hdir).
    destruct (canExec p); [|discriminate].
    destruct (String.eqb c "."); [trivial|].
    destruct (String.eqb c ".."); [trivial|].
    destruct (fs !! child cur c) as [n|] eqn:Hchild; [|discriminate].
    rewrite lookup_insert. destruct (decide (K = child cur c)); [trivial|].
    now rewrite Hchild.
Qed.

Lemma walk_insert (fs : gmap string Node) (K content : string) (q : Perms)
    (cs : list string) (cur k : string) :
  (forall p', fs !! K <> Some (DirNode p')) ->
  walk fs cur cs = Return k ->
  walk (<[K := FileNode content q]> fs) cur cs = Return k.
Proof.
  intros HK. revert cur. induction cs as [|c cs IH]; intros cur; [trivial|]. simpl.
  destruct (enter fs cur c) as [cur'|e] eqn:Henter; [|discriminate].
  rewrite (enter_insert fs K cur c cur' content q HK Henter). apply IH.
Qed.

Lemma locate_insert (w : MemWorld) (s K content : string) (q : Perms) (r : string * string) :
  (forall p', files w !! K <> Some (DirNode p')) ->
  locate w s = Return r ->
  locate (withFiles w (<[K := FileNode content q]> (files w))) s = Return r.
Proof.
  intros HK. unfold locate. simpl cwd. simpl files.
  destruct (startOf (cwd w) s) as [[from cs]|e]; [|discriminate].
  destruct (isSpecial _).
  - destruct (walk (files w) from cs) as [k|e] eqn:Hwalk; [|discriminate].
    now rewrite (walk_insert _ K content q _ _ _ HK Hwalk).
  - destruct (walk (files w) from (List.removelast cs)) as [k|e] eqn:Hwalk; [|discriminate].
    now rewrite (walk_insert _ K content q _ _ _ HK Hwalk).
Qed.

Lemma withFiles_same (w : MemWorld) : withFiles w (files w) = w.
Proof. now destruct w. Qed.

Section ScratchEntry.
Context (os : string).

Lemma scratch_write_then_remove (dir key : string) (perms : Perms) (w : MemWorld) :
  resolveKey w dir = Return key ->
  files w !! key = Some (DirNode perms) ->
  canWrite perms = true ->
  canExec perms = true ->
  files w !! child key (scratchSegment (clock w)) = None ->
  let tmp := PathString (tempPathOf (PathString dir) (clock w)) in
  exists w1,
    memWriteTextFile tmp "" w = (Return tt, w1)
    /\ files w1 !! child key (scratchSegment (clock w)) = Some (FileNode "" defaultPerms)
    /\ memRemove tmp w1 = (Return tt, w).
Proof.
  intros Hkey Hlook Hwrite Hexec Hfresh tmp.
  set (seg := scratchSegment (clock w)) in *.
  set (K := child key seg) in *.
  assert (Hne : K <> key) by (intros Heq; rewrite Heq in Hfresh; congruence).
  assert (Hnodir : forall p', files w !! K <> Some (DirNode p'))
    by (intros p'; rewrite Hfresh; discriminate).
  assert (Hloc : locate w (tempPathOf (PathString dir) (clock w)) = Return (key, seg))
    by (rewrite tempPathOf_segment; now apply locate_scratch).
  assert (Hsearch : searchDir (files w) key = Return perms)
    by (unfold searchDir, lookupDir; now rewrite Hlook, Hexec).
  exists (withFiles w (<[K := FileNode "" defaultPerms]> (files w))).
  split; [|split].
  - unfold memWriteTextFile, locateArg, tmp, resolve. rewrite Hloc, Hsearch.
    fold K. now rewrite Hfresh, Hwrite.
  - simpl. apply lookup_insert_eq.
  - unfold memRemove, locateArg, tmp, resolve.
    rewrite (locate_insert w _ K "" defaultPerms _ Hnodir Hloc).
    simpl files. unfold searchDir, lookupDir.
    rewrite lookup_insert_ne, Hlook, Hexec by exact Hne.
    fold K. rewrite lookup_insert_eq, Hwrite. simpl negb. cbv iota.
    rewrite delete_insert_id by exact Hfresh.
    unfold withFiles. simpl. now destruct w.
Qed.

Lemma accessSync_writable_directory (dir key : string) (perms : Perms) (w : MemWorld)
    (log : list event) :
  resolveKey w dir = Return key ->
  files w !! key = Some (DirNode perms) ->
  canWrite perms = true ->
  canExec perms = true ->
  files w !! child key (scratchSegment (clock w)) = None ->
  let tmp := PathString (tempPathOf (PathString dir) (clock w)) in
  accessSync (h := memHost os) (PathString dir) (Some AccessMode.W_OK) (w, log)
  = (Return tt,
     (w, log ++ [EvStat (PathString dir); EvNow; EvWriteTextFile tmp ""; EvRemove tmp])).
Proof.
  intros Hkey Hlook Hwrite Hexec Hfresh tmp.
  destruct (scratch_write_then_remove dir key perms w Hkey Hlook Hwrite Hexec Hfresh)
    as (w1 & Hcreate & _ & Hremove).
  apply (accessSync_directory_write_steps (memHost os) (PathString dir) (w, log)
           {| isFile := false; isDirectory := true; isSymlink := false |}
           w w w1 w (clock w)); try reflexivity; try assumption.
  simpl. unfold memStat, keyOf, resolve. now rewrite Hkey, Hlook.
Qed.

Lemma accessSyncAt_writable_directory (dir key : string) (perms : Perms) (times : list Z) :
  canWrite perms = true ->
  canExec perms = true ->
  forall (w : MemWorld) (log : list event),
    resolveKey w dir = Return key ->
    files w !! key = Some (DirNode perms) ->
    Forall (fun t => files w !! child key (scratchSegment t) = None) times ->
    exists w' log',
      accessSyncAt os (PathString dir) (Some AccessMode.W_OK) times (w, log)
      = (Return tt, (w', log'))
      /\ files w' = files w /\ cwd w' = cwd w.
Proof.
  intros Hwrite Hexec. induction times as [|t rest IH]; intros w log Hkey Hlook Hfresh.
  - now exists w, log.
  - inversion Hfresh as [|? ? Ht Hrest]; subst.
    simpl accessSyncAt. simpl fst. simpl snd.
    set (wt := {| files := files w; cwd := cwd w; clock := t;
                  runPermission := runPermission w;
                  testInstalled := testInstalled w |}).
    rewrite (bind_return (h := memHost os) _ _ _ tt _
               (accessSync_writable_directory dir key perms wt log Hkey Hlook Hwrite Hexec Ht)).
    apply (IH wt); assumption.
Qed.

(** C9, as the code has it.  On the in-memory runtime: for a directory
    with write and search permission, named by a string path, that holds
    no entry called [.deno_access_test_<clock reading>], the write check
    stats the directory, reads the clock, creates that scratch entry
    under the directory, removes it, and succeeds, leaving the world
    exactly as it was, in both calling conventions; and any number of
    such checks, at clock readings whose scratch names are all unused,
    succeed and leave the files as they were.  On any runtime: when the
    create and the remove of the scratch entry both succeed, the check
    makes exactly these four calls and succeeds. *)
Theorem writable_directory_check_restores_files
    (dir key : string) (perms : Perms) (w : MemWorld) (log : list event) :
  resolveKey w dir = Return key ->
  files w !! key = Some (DirNode perms) ->
  canWrite perms = true ->
  canExec perms = true ->
  files w !! child key (scratchSegment (clock w)) = None ->
  let tmp := PathString (tempPathOf (PathString dir) (clock w)) in
  let after :=
    (w, log ++ [EvStat (PathString dir); EvNow; EvWriteTextFile tmp ""; EvRemove tmp]) in
  accessSync (h := memHost os) (PathString dir) (Some AccessMode.W_OK) (w, log)
    = (Return tt, after)
  /\ access (h := memHost os) (PathString dir) (Some AccessMode.W_OK) (w, log)
    = (Return tt, after)
  /\ (forall times : list Z,
        Forall (fun t => files w !! child key (scratchSegment t) = None) times ->
        exists w' log',
          accessSyncAt os (PathString dir) (Some AccessMode.W_OK) times (w, log)
          = (Return tt, (w', log'))
          /\ files w' = files w)
  /\ (forall (h : Host) (path : PathLike) (s : st h) (info : FileInfo)
        (w1 w2 w3 w4 : world h) (t : Z),
        host_stat h path (fst s) = (Return info, w1) ->
        isFile info = false ->
        isDirectory info = true ->
        host_now h w1 = (t, w2) ->
        host_writeTextFile h (PathString (tempPathOf path t)) "" w2 = (Return tt, w3) ->
        host_remove h (PathString (tempPathOf path t)) w3 = (Return tt, w4) ->
        accessSync path (Some AccessMode.W_OK) s
          = (Return tt,
             (w4, snd s ++ [EvStat path; EvNow;
                            EvWriteTextFile (PathString (tempPathOf path t)) "";
                            EvRemove (PathString (tempPathOf path t))]))
        /\ access path (Some AccessMode.W_OK) s = accessSync path (Some AccessMode.W_OK) s).
Proof.
  intros Hkey Hlook Hwrite Hexec Hfresh tmp after.
  pose proof (accessSync_writable_directory dir key perms w log
                Hkey Hlook Hwrite Hexec Hfresh) as Hsync.
  split; [exact Hsync | split; [now rewrite access_eq | split]].
  - intros times Htimes.
    destruct (accessSyncAt_writable_directory dir key perms times Hwrite Hexec
                w log Hkey Hlook Htimes) as (w' & log' & Hrun & Hfiles & _).
    eauto.
  - intros h path s info w1 w2 w3 w4 t Hstat Hfile Hdir Hnow Hcreate Hremove.
    split; [|apply access_eq].
    apply (accessSync_directory_write_steps h path s info w1 w2 w3 w4 t); try assumption.
    unfold kindOf. now rewrite Hfile, Hdir.
Qed.
End ScratchEntry.

(** ** The sample world, run *)

Lemma access_missing_path_ENOENT_sample :
  accessSync (h := linux) (PathString "missing.txt") None start
  = (Throw (ErrorWithCause "ENOENT: no such file or directory, access 'missing.txt'"
              (Native notFoundError)),
     (sampleWorld, [EvStat (PathString "missing.txt")])).
Proof.
  refine (proj1 (access_missing_path_ENOENT linux (PathString "missing.txt") None start
                   notFoundError sampleWorld _ _)); reflexivity.
Defined.

Lemma access_existence_only_sample :
  existenceOnly (Some 7)
  /\ accessSync (h := linux) (PathString "/srv/locked.txt") (Some 7) start
     = (Return tt, (sampleWorld, [EvStat (PathString "/srv/locked.txt")])).
Proof.
  assert (Hmode : existenceOnly (Some 7)).
  { right. right. exists 7. split; [reflexivity|]. unfold definedMode. intros [H|[H|[H|H]]]; discriminate H. }
  split; [exact Hmode|].
  refine (proj1 (access_existence_only linux (PathString "/srv/locked.txt") (Some 7) start
                   {| isFile := true; isDirectory := false; isSymlink := false |}
                   sampleWorld _ Hmode)); reflexivity.
Defined.

Lemma access_other_kind_succeeds_sample :
  accessSync (h := linux) (PathString "/srv/ctl.sock") (Some AccessMode.X_OK) start
  = (Return tt, (sampleWorld, [EvStat (PathString "/srv/ctl.sock")])).
Proof.
  refine (proj1 (access_other_kind_succeeds linux (PathString "/srv/ctl.sock")
                   (Some AccessMode.X_OK) start
                   {| isFile := false; isDirectory := false; isSymlink := false |}
                   sampleWorld _ _ _)); reflexivity.
Defined.

Lemma access_failure_normalized_sample :
  accessSync (h := linux) (PathString "/srv/locked.txt") (Some AccessMode.R_OK) start
  = (Throw (ErrorWithCause "EACCES: permission denied, Readable '/srv/locked.txt'"
              (Native permissionDeniedError)),
     (sampleWorld,
      [EvStat (PathString "/srv/locked.txt");
       EvOpen (PathString "/srv/locked.txt") {| read := true; write := false |}])).
Proof.
  refine (proj1 (access_failure_normalized linux (PathString "/srv/locked.txt")
                   (Some AccessMode.R_OK) start _ (Native permissionDeniedError) _ _));
    reflexivity.
Defined.


Lemma isExecutable_posix_sample :
  exists b,
    isExecutableSync (h := linux) (PathString "/srv/run.sh") start
    = (Return b,
       (sampleWorld,
        [EvStat (PathString "/srv/run.sh");
         EvQuery {| permName := "run"; command := PathString "/srv/run.sh" |};
         EvOutput "test" ["-x"; "/srv/run.sh"]]))
    /\ (b = true <-> 0 = 0).
Proof.
  refine (proj1 (proj2 (isExecutable_posix linux (PathString "/srv/run.sh") start
                          {| isFile := true; isDirectory := false; isSymlink := false |}
                          sampleWorld sampleWorld {| state := granted |} _ _ _ _))
            _ {| code := 0 |} sampleWorld _);
    first [reflexivity | discriminate].
Defined.

Lemma isExecutable_windows_sample :
  exists b,
    isExecutableSync (h := windows) (PathString "/srv/test.cmd") start
    = (Return b, (sampleWorld, [EvStat (PathString "/srv/test.cmd")]))
    /\ isExecutable (h := windows) (PathString "/srv/test.cmd") start
       = (Return b, (sampleWorld, [EvStat (PathString "/srv/test.cmd")]))
    /\ (b = true <-> true = true /\ hasExecExtension "/srv/test.cmd").
Proof.
  refine (isExecutable_windows windows (PathString "/srv/test.cmd") start
            {| isFile := true; isDirectory := false; isSymlink := false |}
            sampleWorld _ _); reflexivity.
Defined.

Lemma access_follows_resolver_table_sample :
  accessSync (h := linux) (PathString "/srv/readme.md") (Some AccessMode.R_OK) start
  = tryCatch (h := linux) (runProbe OpenForReading (PathString "/srv/readme.md"))
      (accessCatch (PathString "/srv/readme.md") (Some AccessMode.R_OK))
      (sampleWorld, [EvStat (PathString "/srv/readme.md")]).
Proof.
  refine (proj1 (access_follows_resolver_table linux (PathString "/srv/readme.md")
                   AccessMode.R_OK start
                   {| isFile := true; isDirectory := false; isSymlink := false |}
                   sampleWorld File _ _)); reflexivity.
Defined.

Lemma access_probe_by_cell_sample :
  accessSync (h := linux) (PathString "/srv/readme.md") (Some AccessMode.R_OK) start
  = (Return tt,
     (sampleWorld,
      [EvStat (PathString "/srv/readme.md");
       EvOpen (PathString "/srv/readme.md") {| read := true; write := false |};
       EvClose {| rid := 3 |}])).
Proof.
  refine (proj1 (proj1 (access_probe_by_cell linux (PathString "/srv/readme.md") start
                          {| isFile := true; isDirectory := false; isSymlink := false |}
                          sampleWorld _) _)); reflexivity.
Defined.

Lemma writable_directory_check_restores_files_sample :
  accessSync (h := linux) (PathString "/srv") (Some AccessMode.W_OK) start
  = (Return tt,
     (sampleWorld,
      [EvStat (PathString "/srv"); EvNow;
       EvWriteTextFile (PathString "/srv/.deno_access_test_1700000000000") "";
       EvRemove (PathString "/srv/.deno_access_test_1700000000000")])).
Proof.
  refine (proj1 (writable_directory_check_restores_files "linux" "/srv" "/srv" rwx
                   sampleWorld [] _ _ _ _ _)); reflexivity.
Defined.

(** C1, refuted as stated: with run permission for the checked file
    only, the probe does not return [false], it fails because spawning
    [test] is refused, and the check raises permission-denied all the
    same. *)
Lemma access_execute_denied_without_false :
  isExecutableSync (h := scopedRunHost "linux") (PathString "/srv/run.sh")
    (sampleWorld, [EvStat (PathString "/srv/run.sh")])
  = (Throw (Native {| errClass := NotCapable; errMessage := "Requires run access to test" |}),
     (sampleWorld,
      [EvStat (PathString "/srv/run.sh"); EvStat (PathString "/srv/run.sh");
       EvQuery {| permName := "run"; command := PathString "/srv/run.sh" |};
       EvOutput "test" ["-x"; "/srv/run.sh"]]))
  /\ accessSync (h := scopedRunHost "linux") (PathString "/srv/run.sh")
       (Some AccessMode.X_OK) start
     = (Throw (ErrorWithCause "EACCES: permission denied, Executable '/srv/run.sh'"
                 (Native {| errClass := NotCapable;
                            errMessage := "Requires run access to test" |})),
        (sampleWorld,
         [EvStat (PathString "/srv/run.sh"); EvStat (PathString "/srv/run.sh");
          EvQuery {| permName := "run"; command := PathString "/srv/run.sh" |};
          EvOutput "test" ["-x"; "/srv/run.sh"]]))
  /\ ~ (exists s2,
          isExecutableSync (h := scopedRunHost "linux") (PathString "/srv/run.sh")
            (sampleWorld, [EvStat (PathString "/srv/run.sh")])
          = (Return false, s2)).
Proof.
  assert (Hprobe :
            isExecutableSync (h := scopedRunHost "linux") (PathString "/srv/run.sh")
              (sampleWorld, [EvStat (PathString "/srv/run.sh")])
            = (Throw (Native {| errClass := NotCapable;
                                errMessage := "Requires run access to test" |}),
               (sampleWorld,
                [EvStat (PathString "/srv/run.sh"); EvStat (PathString "/srv/run.sh");
                 EvQuery {| permName := "run"; command := PathString "/srv/run.sh" |};
                 EvOutput "test" ["-x"; "/srv/run.sh"]])))
    by reflexivity.
  split; [exact Hprobe | split; [reflexivity|]].
  intros (s2 & Heq). rewrite Hprobe in Heq. discriminate Heq.
Qed.


(** C7, refuted as stated: on Windows the probe stats the path, and for
    a directory whose name ends in [.exe] it answers [false]. *)
Lemma isExecutable_windows_stats_the_path :
  hasExecExtension "/srv/tools.exe"
  /\ isExecutableSync (h := windows) (PathString "/srv/tools.exe") start
     = (Return false, (sampleWorld, [EvStat (PathString "/srv/tools.exe")]))
  /\ snd (snd (isExecutableSync (h := windows) (PathString "/srv/tools.exe") start)) <> [].
Proof.
  split; [|split].
  - exists ".exe", "/srv/tools", ".exe".
    split; [apply list_elem_of_In; now left | split; reflexivity].
  - reflexivity.
  - discriminate.
Qed.

(** C9, refuted as stated: the directory is writable and the check
    succeeds, but an entry that already carried the scratch name is gone
    afterwards. *)
Lemma scratch_name_collision_removes_entry :
  tempPathOf (PathString "/srv") (clock collidingWorld) = scratchName
  /\ files collidingWorld !! "/srv" = Some (DirNode rwx)
  /\ files collidingWorld !! scratchName = Some (FileNode "keep me" rw_)
  /\ fst (accessSync (h := linux) (PathString "/srv") (Some AccessMode.W_OK)
            (collidingWorld, []))
     = Return tt
  /\ files (fst (snd (accessSync (h := linux) (PathString "/srv") (Some AccessMode.W_OK)
                        (collidingWorld, []))))
       !! scratchName
     = None
  /\ files (fst (snd (accessSync (h := linux) (PathString "/srv") (Some AccessMode.W_OK)
                        (collidingWorld, []))))
     <> files collidingWorld.
Proof.
  assert (Hbefore : files collidingWorld !! scratchName = Some (FileNode "keep me" rw_))
    by (vm_compute; reflexivity).
  assert (Hafter :
            files (fst (snd (accessSync (h := linux) (PathString "/srv")
                               (Some AccessMode.W_OK) (collidingWorld, []))))
              !! scratchName = None)
    by (vm_compute; reflexivity).
  repeat split; try (vm_compute; reflexivity); try assumption.
  intros Heq. rewrite Heq, Hbefore in Hafter. discriminate Hafter.
Qed.

(** ** The repository's own test steps, and the design's scenario *)

(** [await access('./README.md')] *)
Example test_access_existence :
  fst (access (h := linux) (PathString "/srv/readme.md") None start) = Return tt.
Proof. reflexivity. Qed.

(** [accessSync('./README.md', AccessMode.R_OK)] *)
Example test_accessSync_read :
  accessSync (h := linux) (PathString "/srv/readme.md") (Some AccessMode.R_OK) start
  = (Return tt,
     (sampleWorld,
      [EvStat (PathString "/srv/readme.md");
       EvOpen (PathString "/srv/readme.md") {| read := true; write := false |};
       EvClose {| rid := 3 |}])).
Proof. reflexivity. Qed.

(** [await access('./README.md', AccessMode.W_OK)] *)
Example test_access_write :
  access (h := linux) (PathString "/srv/readme.md") (Some AccessMode.W_OK) start
  = (Return tt,
     (sampleWorld,
      [EvStat (PathString "/srv/readme.md");
       EvOpen (PathString "/srv/readme.md") {| read := false; write := true |};
       EvClose {| rid := 3 |}])).
Proof. reflexivity. Qed.

(** [accessSync('./test.cmd', AccessMode.X_OK)], on Windows *)
Example test_accessSync_execute :
  accessSync (h := windows) (PathString "/srv/test.cmd") (Some AccessMode.X_OK) start
  = (Return tt,
     (sampleWorld, [EvStat (PathString "/srv/test.cmd"); EvStat (PathString "/srv/test.cmd")])).
Proof. reflexivity. Qed.

(** A file without its execute bit, on Linux. *)
Example access_execute_denied :
  fst (accessSync (h := linux) (PathString "/srv/readme.md") (Some AccessMode.X_OK) start)
  = Throw (ErrorWithCause "EACCES: permission denied, Executable '/srv/readme.md'"
             (Error "EACCES: permission denied, execute '/srv/readme.md'")).
Proof. reflexivity. Qed.

(** A read-only directory. *)
Example access_locked_directory :
  accessSync (h := linux) (PathString "/srv/locked.dir") (Some AccessMode.W_OK) start
  = (Throw (ErrorWithCause "EACCES: permission denied, Writable '/srv/locked.dir'"
              (Native permissionDeniedError)),
     (sampleWorld,
      [EvStat (PathString "/srv/locked.dir"); EvNow;
       EvWriteTextFile (PathString "/srv/locked.dir/.deno_access_test_1700000000000") ""])).
Proof. vm_compute. reflexivity. Qed.

(** A failure of the probe itself is classified like any other: with no
    [test] program to spawn, the check of an executable file reports
    not-found. *)
Example access_execute_without_test_program :
  fst (accessSync (h := linux) (PathString "/srv/run.sh") (Some AccessMode.X_OK)
         ({| files := sampleFiles; cwd := "/srv"; clock := 0; runPermission := granted;
             testInstalled := false |}, []))
  = Throw (ErrorWithCause "ENOENT: no such file or directory, access '/srv/run.sh'"
             (Native {| errClass := NotFound;
                        errMessage := "Failed to spawn: No such file or directory (os error 2)" |})).
Proof. vm_compute. reflexivity. Qed.

(** A directory named by a URL: the scratch name is built from the
    [href], which is not a path of the file system. *)
Example access_url_directory_write :
  fst (accessSync (h := linux) (PathURL "file:///srv") (Some AccessMode.W_OK) start)
  = Throw (ErrorWithCause "ENOENT: no such file or directory, access 'file:///srv'"
             (Native notFoundError)).
Proof. vm_compute. reflexivity. Qed.

(** * Further properties of the code *)

(** ** What the log can contain *)

Section Emits.
Context {h : Host}.

Lemma emits_ret {A} p n (a : A) : emits (h := h) p n (ret a).
Proof. intros s. exists []. simpl. rewrite app_nil_r. repeat split. lia. Qed.

Lemma emits_throw {A} p n (e : exn) : emits (h := h) (A := A) p n (throw e).
Proof. intros s. exists []. simpl. rewrite app_nil_r. repeat split. lia. Qed.

Lemma emits_prim {A} p n ev (f : world h -> completion DenoError A * world h) :
  p ev = true -> (1 <= n)%nat -> emits p n (prim ev f).
Proof.
  intros Hp Hn s. exists [ev].
  destruct (prim_cases ev f s) as [(a & w' & _ & ->) | (e & w' & _ & ->)];
    simpl; rewrite Hp; repeat split; assumption.
Qed.

Lemma emits_now p n : p EvNow = true -> (1 <= n)%nat -> emits (h := h) p n Date_now.
Proof.
  intros Hp Hn s. exists [EvNow]. unfold Date_now.
  destruct (host_now h (fst s)) as [t w']. simpl. rewrite Hp. repeat split. assumption.
Qed.

Lemma emits_bind {A B} p n m (c : M h A) (k : A -> M h B) :
  emits p n c -> (forall a, emits p m (k a)) -> emits p (n + m) (bind c k).
Proof.
  intros Hc Hk s. destruct (Hc s) as (evs & Hlog & Hall & Hlen).
  unfold bind. destruct (c s) as [[a|e] s1]; simpl in Hlog.
  - destruct (Hk a s1) as (evs' & Hlog' & Hall' & Hlen').
    exists (evs ++ evs'). rewrite Hlog', Hlog, app_assoc, forallb_app, Hall, Hall'.
    repeat split. rewrite List.length_app. lia.
  - exists evs. simpl. repeat split; [assumption.. | lia].
Qed.

Lemma emits_tryCatch {A} p n m (body : M h A) (handler : exn -> M h A) :
  emits p n body -> (forall e, emits p m (handler e)) -> emits p (n + m) (tryCatch body handler).
Proof.
  intros Hc Hk s. destruct (Hc s) as (evs & Hlog & Hall & Hlen).
  unfold tryCatch. destruct (body s) as [[a|e] s1]; simpl in Hlog.
  - exists evs. simpl. repeat split; [assumption.. | lia].
  - destruct (Hk e s1) as (evs' & Hlog' & Hall' & Hlen').
    exists (evs ++ evs'). rewrite Hlog', Hlog, app_assoc, forallb_app, Hall, Hall'.
    repeat split. rewrite List.length_app. lia.
Qed.

(** A primitive followed by a continuation: its event comes first. *)
Lemma bind_prim_log {A B} p n ev (f : world h -> completion DenoError A * world h)
    (k : A -> M h B) :
  (forall a, emits p n (k a)) ->
  forall s, exists evs,
    snd (snd (bind (prim ev f) k s)) = snd s ++ ev :: evs
    /\ forallb p evs = true /\ (length evs <= n)%nat.
Proof.
  intros Hk s.
  destruct (prim_cases ev f s) as [(a & w' & _ & Hp) | (e & w' & _ & Hp)].
  - rewrite (bind_return _ _ _ _ _ Hp).
    destruct (Hk a (w', snd s ++ [ev])) as (evs & Hlog & Hall & Hlen).
    exists evs. rewrite Hlog. simpl. now rewrite <- app_assoc.
  - rewrite (bind_throw _ _ _ _ _ Hp). exists []. simpl. repeat split. lia.
Qed.

(** The catch clause calls nothing. *)
Lemma accessCatch_state (path : PathLike) (mode : option Z) (e : exn) (s : st h) :
  snd (accessCatch path mode e s) = s.
Proof. unfold accessCatch. now destruct (instanceofNotFound e). Qed.

Lemma accessSync_state (path : PathLike) (mode : option Z) (s : st h) :
  snd (accessSync path mode s) = snd (accessSyncBody path mode s).
Proof.
  unfold accessSync, tryCatch.
  destruct (accessSyncBody path mode s) as [[[]|e] s1]; [reflexivity|].
  apply accessCatch_state.
Qed.
End Emits.

Ltac emits_prims :=
  unfold Deno_statSync, Deno_openSync, FsFile_close, Deno_readDirSync,
    Deno_writeTextFileSync, Deno_removeSync, Deno_permissions_querySync,
    Deno_Command_outputSync.

Ltac emits_leaf :=
  first [ apply emits_ret | apply emits_throw
        | apply emits_prim; [reflexivity | lia]
        | apply emits_now; [reflexivity | lia] ].

Section Calls.
Context (h : Host).

Lemma isExecutableSync_emits (path : PathLike) :
  emits (h := h) (fun ev => negb (mutating ev)) 3 (isExecutableSync path).
Proof.
  unfold isExecutableSync. emits_prims.
  apply (emits_bind _ 1 2); [emits_leaf|]. intros info.
  destruct (negb (isFile info)); [emits_leaf|].
  destruct (String.eqb (build_os h) "windows"); [emits_leaf|].
  apply (emits_bind _ 1 1); [emits_leaf|]. intros status.
  destruct (negb (stateIsGranted (state status))); [emits_leaf|].
  apply (emits_bind _ 1 0); [emits_leaf|]. intros out. emits_leaf.
Qed.

(** X1. Every check, in either calling convention and whatever its
    outcome, begins by calling stat on the path; when that stat fails,
    the check calls nothing else. *)
Theorem access_stats_first (path : PathLike) (mode : option Z) (s : st h) :
  (exists evs,
     snd (snd (accessSync path mode s)) = snd s ++ EvStat path :: evs
     /\ snd (snd (access path mode s)) = snd s ++ EvStat path :: evs)
  /\ (forall e w1,
        host_stat h path (fst s) = (Throw e, w1) ->
        snd (snd (accessSync path mode s)) = snd s ++ [EvStat path]
        /\ snd (snd (access path mode s)) = snd s ++ [EvStat path]).
Proof.
  rewrite access_eq, accessSync_state. split.
  - cut (exists evs,
           snd (snd (accessSyncBody path mode s)) = snd s ++ EvStat path :: evs
           /\ forallb (fun _ => true) evs = true /\ (length evs <= 3)%nat).
    { intros (evs & Hlog & _ & _). exists evs. auto. }
    unfold accessSyncBody, Deno_statSync. apply bind_prim_log. intros info.
    destruct mode as [m|]; [|emits_leaf]. cbv zeta. emits_prims.
    destruct (m =? AccessMode.R_OK); [|destruct (m =? AccessMode.W_OK);
      [|destruct (m =? AccessMode.X_OK)]];
      destruct (isFile info), (isDirectory info);
      try emits_leaf;
      try (apply (emits_bind _ 1 2); [emits_leaf|]; intros ?; cbv zeta;
           try emits_leaf;
           try (apply (emits_bind _ 1 1); [emits_leaf|]; intros ?; emits_leaf)).
    all: apply (emits_bind _ 3 0); [|intros []; emits_leaf].
    all: intros s'; destruct (isExecutableSync_emits path s') as (evs & Hlog & _ & Hlen).
    all: exists evs; repeat split; try assumption.
    all: now apply forallb_forall.
  - intros e w1 Hstat. unfold accessSyncBody, Deno_statSync.
    destruct (prim_cases (EvStat path) (host_stat h path) s)
      as [(info & w2 & Hstat' & _) | (e' & w2 & _ & Hp)]; [congruence|].
    now rewrite (bind_throw _ _ _ _ _ Hp).
Qed.
End Calls.

Section Branches.
Context (h : Host).

(** X2. A check calls [writeTextFile] or [remove] only when the mode is
    [W_OK] and stat reported a directory that is not a regular file: in
    every other case it leaves the file system to read-only calls. *)
Theorem access_mutates_only_in_directory_write
    (path : PathLike) (mode : option Z) (s : st h) (evs : list event) (ev : event) :
  snd (snd (accessSync path mode s)) = snd s ++ evs ->
  In ev evs ->
  mutating ev = true ->
  mode = Some AccessMode.W_OK
  /\ exists info w1,
       host_stat h path (fst s) = (Return info, w1)
       /\ isFile info = false /\ isDirectory info = true.
Proof.
  intros Hlog Hin Hmut. rewrite accessSync_state in Hlog.
  unfold accessSyncBody, Deno_statSync in Hlog.
  destruct (prim_cases (EvStat path) (host_stat h path) s)
    as [(info & w1 & Hstat & Hp) | (e & w1 & _ & Hp)].
  - rewrite (bind_return _ _ _ _ _ Hp) in Hlog. cbv beta in Hlog.
    match type of Hlog with
    | snd (snd (?c _)) = _ =>
        assert (Hc : (mode = Some AccessMode.W_OK
                      /\ isFile info = false /\ isDirectory info = true)
                     \/ emits (fun ev => negb (mutating ev)) 3 c)
    end.
    { destruct mode as [m|]; [|right; emits_leaf]. cbv zeta. emits_prims.
      destruct (Z.eqb_spec m AccessMode.R_OK) as [->|_];
        [|destruct (Z.eqb_spec m AccessMode.W_OK) as [->|_];
          [|destruct (Z.eqb_spec m AccessMode.X_OK) as [->|_]]];
        destruct (isFile info), (isDirectory info);
        try (left; repeat split; reflexivity);
        right;
        try emits_leaf;
        try (apply (emits_bind _ 1 2); [emits_leaf|]; intros ?; cbv zeta; emits_leaf).
      all: apply (emits_bind _ 3 0); [apply isExecutableSync_emits|].
      all: intros []; emits_leaf. }
    destruct Hc as [(Hmode & Hfile & Hdir) | Hc]; [split; eauto|].
    exfalso. destruct (Hc (w1, snd s ++ [EvStat path])) as (evs' & Hlog' & Hall & _).
    rewrite Hlog' in Hlog. simpl in Hlog. rewrite <- app_assoc in Hlog.
    apply app_inv_head in Hlog. subst evs. destruct Hin as [<- | Hin]; [discriminate|].
    rewrite forallb_forall in Hall. apply Hall in Hin. now rewrite Hmut in Hin.
  - rewrite (bind_throw _ _ _ _ _ Hp) in Hlog. simpl in Hlog.
    apply app_inv_head in Hlog. subst evs. destruct Hin as [<- | []]. discriminate.
Qed.

(** X3. The probe, in either form, calls stat on the path, then at most
    the [run] permission query for the path, then at most
    [test -x <path>], in that order and nothing else; on Windows it
    calls stat alone. *)
Theorem isExecutable_calls (path : PathLike) (s : st h) :
  let query := EvQuery {| permName := "run"; command := path |} in
  let spawn := EvOutput "test" ["-x"; toString path] in
  exists evs,
    snd (snd (isExecutableSync path s)) = snd s ++ EvStat path :: evs
    /\ snd (snd (isExecutable path s)) = snd s ++ EvStat path :: evs
    /\ (evs = [] \/ evs = [query] \/ evs = [query; spawn])
    /\ (build_os h = "windows" -> evs = []).
Proof.
  intros query spawn.
  change (isExecutable path s) with (isExecutableSync path s).
  unfold isExecutableSync, Deno_statSync, Deno_permissions_querySync,
    Deno_Command_outputSync.
  destruct (prim_cases (EvStat path) (host_stat h path) s)
    as [(info & w1 & _ & Hp) | (e & w1 & _ & Hp)].
  - rewrite (bind_return _ _ _ _ _ Hp).
    destruct (negb (isFile info)); [exists []; simpl; auto|].
    destruct (String.eqb_spec (build_os h) "windows") as [Hos|Hos];
      [exists []; simpl; auto|].
    set (s1 := (w1, snd s ++ [EvStat path])).
    destruct (prim_cases query (host_query h {| permName := "run"; command := path |}) s1)
      as [(status & w2 & _ & Hq) | (e & w2 & _ & Hq)].
    + rewrite (bind_return _ _ _ _ _ Hq).
      destruct (negb (stateIsGranted (state status))).
      * exists [query]. simpl. rewrite <- app_assoc. repeat split; auto.
        intros Hwin. now destruct Hos.
      * set (s2 := (w2, snd s1 ++ [query])).
        exists [query; spawn].
        destruct (prim_cases spawn (host_output h "test" ["-x"; toString path]) s2)
          as [(out & w3 & _ & Ho) | (e & w3 & _ & Ho)];
          [rewrite (bind_return _ _ _ _ _ Ho) | rewrite (bind_throw _ _ _ _ _ Ho)];
          simpl; rewrite <- !app_assoc; repeat split; auto;
          intros Hwin; now destruct Hos.
    + rewrite (bind_throw _ _ _ _ _ Hq). exists [query]. simpl.
      rewrite <- app_assoc. repeat split; auto. intros Hwin. now destruct Hos.
  - rewrite (bind_throw _ _ _ _ _ Hp). exists []. simpl. auto.
Qed.

(** X4. A failing check never lets a runtime error escape as it is: what
    it throws is a plain [Error] whose message is the [ENOENT: ...
    access '<path>'] text when its cause is a not-found error and the
    [EACCES: permission denied, <mode-name> '<path>'] text otherwise;
    there is no third shape. *)
Theorem access_error_shapes
    (path : PathLike) (mode : option Z) (s s' : st h) (x : exn) :
  accessSync path mode s = (Throw x, s') ->
  access path mode s = (Throw x, s')
  /\ exists cause,
       (instanceofNotFound cause = true
        /\ x = ErrorWithCause
                 ("ENOENT: no such file or directory, access '" +:+ toString path +:+ "'")
                 cause)
       \/ (instanceofNotFound cause = false
           /\ x = ErrorWithCause
                    ("EACCES: permission denied, " +:+ AccessMode2String mode
                       +:+ " '" +:+ toString path +:+ "'")
                    cause).
Proof.
  intros Hthrow. split; [now rewrite access_eq|].
  unfold accessSync, tryCatch in Hthrow.
  destruct (accessSyncBody path mode s) as [[[]|e] s1]; [discriminate|].
  exists e. unfold accessCatch, throw in Hthrow.
  destruct (instanceofNotFound e); injection Hthrow as <- _; auto.
Qed.

(** X5. A file the check opens is closed at once: for a read or write
    check of a path stat reports as a regular file, when the open
    succeeds the next and last runtime call is the close of the handle
    it returned, whether or not that close fails. *)
Theorem access_closes_opened_file
    (path : PathLike) (m : Z) (s : st h) (info : FileInfo) (w1 w2 : world h) (file : FsFile) :
  host_stat h path (fst s) = (Return info, w1) ->
  isFile info = true ->
  m = AccessMode.R_OK \/ m = AccessMode.W_OK ->
  let options := {| read := m =? AccessMode.R_OK; write := m =? AccessMode.W_OK |} in
  host_open h path options w1 = (Return file, w2) ->
  snd (accessSync path (Some m) s)
    = (snd (host_close h file w2),
       snd s ++ [EvStat path; EvOpen path options; EvClose file])
  /\ snd (access path (Some m) s) = snd (accessSync path (Some m) s).
Proof.
  intros Hstat Hfile Hm options Hopen. split; [|now rewrite access_eq].
  rewrite accessSync_state. unfold accessSyncBody.
  rewrite (bind_return _ _ s info (w1, snd s ++ [EvStat path])) by now apply prim_return.
  cbv zeta. rewrite Hfile.
  assert (Hclose : forall s2 : st h,
            snd (FsFile_close file s2)
            = (snd (host_close h file (fst s2)), snd s2 ++ [EvClose file])).
  { intros s2. unfold FsFile_close, prim.
    now destruct (host_close h file (fst s2)) as [[[]|e] w3]. }
  destruct Hm as [-> | ->]; subst options; simpl Z.eqb in *;
    cbv beta iota delta [AccessMode.R_OK AccessMode.W_OK Z.eqb Pos.eqb].
  - rewrite (bind_return _ _ _ file
               (w2, (snd s ++ [EvStat path])
                      ++ [EvOpen path {| read := true; write := false |}]))
      by now apply prim_return.
    rewrite Hclose. simpl. now rewrite <- !app_assoc.
  - rewrite (bind_return _ _ _ file
               (w2, (snd s ++ [EvStat path])
                      ++ [EvOpen path {| read := false; write := true |}]))
      by now apply prim_return.
    rewrite Hclose. simpl. now rewrite <- !app_assoc.
Qed.

(** X6. The directory write check has no cleanup path.  When creating
    the scratch entry fails, the check fails with that failure as cause
    and never calls [remove]; when the entry was created and removing it
    fails, the check fails with the removal's failure as cause and calls
    nothing further, so the entry is left to the runtime. *)
Theorem access_directory_write_failures
    (path : PathLike) (s : st h) (info : FileInfo) (w1 w2 w3 : world h) (t : Z)
    (e : DenoError) :
  host_stat h path (fst s) = (Return info, w1) ->
  isFile info = false ->
  isDirectory info = true ->
  host_now h w1 = (t, w2) ->
  let tmp := PathString (tempPathOf path t) in
  let upToWrite := snd s ++ [EvStat path; EvNow; EvWriteTextFile tmp ""] in
  (host_writeTextFile h tmp "" w2 = (Throw e, w3) ->
     accessSync path (Some AccessMode.W_OK) s
     = (Throw (classified path (Some AccessMode.W_OK) e), (w3, upToWrite)))
  /\ (forall w4,
        host_writeTextFile h tmp "" w2 = (Return tt, w3) ->
        host_remove h tmp w3 = (Throw e, w4) ->
        accessSync path (Some AccessMode.W_OK) s
        = (Throw (classified path (Some AccessMode.W_OK) e),
           (w4, upToWrite ++ [EvRemove tmp])))
  /\ access path (Some AccessMode.W_OK) s = accessSync path (Some AccessMode.W_OK) s.
Proof.
  intros Hstat Hfile Hdir Hnow tmp upToWrite.
  assert (Hcatch : forall s' : st h,
            accessCatch path (Some AccessMode.W_OK) (Native e) s'
            = (Throw (classified path (Some AccessMode.W_OK) e), s')).
  { intros s'. unfold accessCatch, classified, instanceofNotFound.
    destruct e as [[] msg]; reflexivity. }
  assert (Hbody : accessSyncBody path (Some AccessMode.W_OK) s
                  = bind (Deno_writeTextFileSync tmp "") (fun _ => Deno_removeSync tmp)
                      (w2, snd s ++ [EvStat path; EvNow])).
  { rewrite (accessSyncBody_table h path AccessMode.W_OK s info w1 Directory Hstat)
      by (unfold kindOf; now rewrite Hfile, Hdir).
    change (resolverTable Directory AccessMode.W_OK) with ScratchCreateDelete.
    unfold runProbe, Date_now, bind at 1. simpl fst. simpl snd. rewrite Hnow.
    now rewrite <- app_assoc. }
  split; [|split; [|apply access_eq]].
  - intros Hwrite. unfold accessSync.
    rewrite (tryCatch_throw _ _ s (Native e) (w3, upToWrite)); [apply Hcatch|].
    rewrite Hbody. apply bind_throw.
    unfold Deno_writeTextFileSync. rewrite (prim_throw _ _ _ e w3) by exact Hwrite.
    simpl. unfold upToWrite. now rewrite <- app_assoc.
  - intros w4 Hwrite Hremove. unfold accessSync.
    rewrite (tryCatch_throw _ _ s (Native e) (w4, upToWrite ++ [EvRemove tmp]));
      [apply Hcatch|].
    rewrite Hbody.
    rewrite (bind_return _ _ _ tt (w3, upToWrite)).
    + unfold Deno_removeSync. now rewrite (prim_throw _ _ _ e w4) by exact Hremove.
    + unfold Deno_writeTextFileSync. rewrite (prim_return _ _ _ tt w3) by exact Hwrite.
      simpl. unfold upToWrite. now rewrite <- app_assoc.
Qed.
End Branches.

(** ** The execute check, end to end *)

Section ExecuteCheck.
Context (h : Host).

Lemma accessSync_execute_file (path : PathLike) (s s2 : st h) (info : FileInfo)
    (w1 : world h) (b : bool) :
  host_stat h path (fst s) = (Return info, w1) ->
  isFile info = true ->
  isDirectory info = false ->
  isExecutableSync path (w1, snd s ++ [EvStat path]) = (Return b, s2) ->
  accessSync path (Some AccessMode.X_OK) s
  = (if b then Return tt else Throw (executeDenied path), s2).
Proof.
  intros Hstat Hfile Hdir Hprobe. unfold accessSync, tryCatch.
  rewrite (accessSyncBody_table h path AccessMode.X_OK s info w1 File Hstat)
    by (unfold kindOf; now rewrite Hfile, Hdir).
  change (resolverTable File AccessMode.X_OK) with ExecutePermission.
  unfold runProbe. rewrite (bind_return _ _ _ _ _ Hprobe).
  destruct b; [reflexivity|].
  unfold throw, executeDenied. now rewrite accessCatch_other.
Qed.

Lemma isExecutableSync_after_stat (path : PathLike) (s1 : st h) (info : FileInfo)
    (w2 : world h) :
  host_stat h path (fst s1) = (Return info, w2) ->
  isFile info = true ->
  isExecutableSync path s1
  = (if String.eqb (build_os h) "windows" then
       ret (existsb (fun ext => endsWith (toLowerCase (toString path)) ext) execExtensions)
     else
       let! permissions :=
         Deno_permissions_querySync {| permName := "run"; command := path |} in
       if negb (stateIsGranted (state permissions)) then ret false
       else
         let! output := Deno_Command_outputSync "test" ["-x"; toString path] in
         ret (code output =? 0)) (w2, snd s1 ++ [EvStat path]).
Proof.
  intros Hstat Hfile. unfold isExecutableSync.
  rewrite (bind_return _ _ s1 info (w2, snd s1 ++ [EvStat path])) by now apply prim_return.
  now rewrite Hfile.
Qed.

(** X7. On Windows, an execute check of a regular file stats the path
    twice (once itself, once in the probe) and calls nothing else; it
    succeeds exactly when the path string ends, up to letter case, in
    [.exe], [.cmd], [.bat] or [.com], and otherwise fails with the
    permission-denied error whose cause is the [execute] error. *)
Theorem access_execute_windows
    (path : PathLike) (s : st h) (info info2 : FileInfo) (w1 w2 : world h) :
  build_os h = "windows" ->
  host_stat h path (fst s) = (Return info, w1) ->
  isFile info = true ->
  isDirectory info = false ->
  host_stat h path w1 = (Return info2, w2) ->
  isFile info2 = true ->
  let after := (w2, snd s ++ [EvStat path; EvStat path]) in
  (hasExecExtension (toString path) ->
     accessSync path (Some AccessMode.X_OK) s = (Return tt, after))
  /\ (~ hasExecExtension (toString path) ->
      accessSync path (Some AccessMode.X_OK) s = (Throw (executeDenied path), after))
  /\ access path (Some AccessMode.X_OK) s = accessSync path (Some AccessMode.X_OK) s.
Proof.
  intros Hos Hstat Hfile Hdir Hstat2 Hfile2 after.
  assert (Hprobe : isExecutableSync path (w1, snd s ++ [EvStat path])
                   = (Return (existsb (fun ext => endsWith (toLowerCase (toString path)) ext)
                                execExtensions), after)).
  { rewrite (isExecutableSync_after_stat path (w1, snd s ++ [EvStat path]) info2 w2 Hstat2 Hfile2), Hos.
    unfold after. simpl. now rewrite <- app_assoc. }
  pose proof (accessSync_execute_file path s after info w1 _ Hstat Hfile Hdir Hprobe)
    as Hrun.
  pose proof (execExtension_test (toString path)) as Htest.
  split; [|split; [|apply access_eq]]; intros Hext; rewrite Hrun.
  - apply Htest in Hext. now rewrite Hext.
  - destruct (existsb _ execExtensions); [|reflexivity].
    exfalso. apply Hext. now apply Htest.
Qed.

(** X8. On other platforms, an execute check of a regular file stats the
    path twice and queries the [run] permission for it.  Unless that
    permission is granted the check fails with permission-denied without
    ever running [test], whatever the file's mode bits; when it is
    granted the check runs [test -x <path>] and succeeds exactly when
    the exit code is 0. *)
Theorem access_execute_posix
    (path : PathLike) (s : st h) (info info2 : FileInfo) (w1 w2 w3 : world h)
    (status : PermissionStatus) :
  build_os h <> "windows" ->
  host_stat h path (fst s) = (Return info, w1) ->
  isFile info = true ->
  isDirectory info = false ->
  host_stat h path w1 = (Return info2, w2) ->
  isFile info2 = true ->
  host_query h {| permName := "run"; command := path |} w2 = (Return status, w3) ->
  let queried :=
    snd s ++ [EvStat path; EvStat path;
              EvQuery {| permName := "run"; command := path |}] in
  (state status <> granted ->
     accessSync path (Some AccessMode.X_OK) s = (Throw (executeDenied path), (w3, queried)))
  /\ (state status = granted ->
      forall out w4,
        host_output h "test" ["-x"; toString path] w3 = (Return out, w4) ->
        accessSync path (Some AccessMode.X_OK) s
        = (if code out =? 0 then Return tt else Throw (executeDenied path),
           (w4, queried ++ [EvOutput "test" ["-x"; toString path]])))
  /\ access path (Some AccessMode.X_OK) s = accessSync path (Some AccessMode.X_OK) s.
Proof.
  intros Hos Hstat Hfile Hdir Hstat2 Hfile2 Hquery queried.
  apply String.eqb_neq in Hos.
  assert (Hhead : isExecutableSync path (w1, snd s ++ [EvStat path])
                  = (if negb (stateIsGranted (state status)) then ret false
                     else
                       let! output := Deno_Command_outputSync "test" ["-x"; toString path] in
                       ret (code output =? 0)) (w3, queried)).
  { rewrite (isExecutableSync_after_stat path (w1, snd s ++ [EvStat path]) info2 w2 Hstat2 Hfile2), Hos.
    rewrite (bind_return _ _ _ status (w3, queried)); [reflexivity|].
    unfold Deno_permissions_querySync.
    rewrite (prim_return _ _ _ status w3) by exact Hquery.
    unfold queried. simpl. now rewrite <- !app_assoc. }
  split; [|split; [|apply access_eq]].
  - intros Hstate.
    apply (accessSync_execute_file path s (w3, queried) info w1 false Hstat Hfile Hdir).
    rewrite Hhead. destruct (state status); [congruence | reflexivity | reflexivity].
  - intros Hstate out w4 Hout.
    apply (accessSync_execute_file path s _ info w1 (code out =? 0) Hstat Hfile Hdir).
    rewrite Hhead, Hstate.
    change (negb (stateIsGranted granted)) with false. cbv iota.
    now rewrite (bind_return _ _ _ out
                   (w4, queried ++ [EvOutput "test" ["-x"; toString path]]))
      by now apply prim_return.
Qed.

(** X9. The string-only copy of the probe and the probe of
    [is_executable.ts] agree on every string path: same result, same
    runtime calls, same final world, in both forms. *)
Theorem StringPath_probe_agrees (path : string) (s : st h) :
  StringPath.isExecutableSync path s = isExecutableSync (PathString path) s
  /\ StringPath.isExecutable path s = isExecutable (PathString path) s
  /\ StringPath.isExecutable path s = StringPath.isExecutableSync path s.
Proof. repeat split. Qed.
End ExecuteCheck.

(** ** Names *)

(** X10. The mode names tell the four constants apart, and the name is
    empty exactly for a value that is none of them. *)
Theorem AccessMode2String_distinguishes (m n : Z) :
  (AccessMode2String (Some m) = "" <-> ~ definedMode m)
  /\ (definedMode m -> AccessMode2String (Some m) = AccessMode2String (Some n) -> m = n).
Proof.
  rewrite !AccessMode2String_modeName.
  unfold definedMode, AccessMode.F_OK, AccessMode.R_OK, AccessMode.W_OK, AccessMode.X_OK.
  split; [split|].
  - intros Hname [-> | [-> | [-> | ->]]]; discriminate Hname.
  - apply modeName_undefined.
  - intros Hm Heq.
    destruct (Z.eq_dec n 0) as [->|H0]; [destruct Hm as [-> | [-> | [-> | ->]]]; now try discriminate|].
    destruct (Z.eq_dec n 4) as [->|H4]; [destruct Hm as [-> | [-> | [-> | ->]]]; now try discriminate|].
    destruct (Z.eq_dec n 2) as [->|H2]; [destruct Hm as [-> | [-> | [-> | ->]]]; now try discriminate|].
    destruct (Z.eq_dec n 1) as [->|H1]; [destruct Hm as [-> | [-> | [-> | ->]]]; now try discriminate|].
    rewrite (modeName_undefined n) in Heq
      by (unfold definedMode, AccessMode.F_OK, AccessMode.R_OK, AccessMode.W_OK,
            AccessMode.X_OK; lia).
    destruct Hm as [-> | [-> | [-> | ->]]]; discriminate Heq.
Qed.

Lemma string_app_inv_head (p a b : string) : p +:+ a = p +:+ b -> a = b.
Proof.
  induction p as [|c p IH]; [trivial|].
  change (String c p +:+ a) with (String c (p +:+ a)).
  change (String c p +:+ b) with (String c (p +:+ b)).
  intros [= H]. now apply IH.
Qed.

Lemma numberToString_inj (a b : Z) : numberToString a = numberToString b -> a = b.
Proof.
  unfold numberToString. intros Heq.
  assert (Hnorm : forall z, Z.to_int z <> Decimal.Pos Decimal.Nil
                            /\ Z.to_int z <> Decimal.Neg Decimal.Nil).
  { intros [|p|p]; simpl; split; try discriminate; intros [= H];
      now apply DecimalPos.Unsigned.to_uint_nonnil in H. }
  apply (f_equal NilZero.int_of_string) in Heq.
  rewrite !NilZero.isi in Heq by apply Hnorm.
  injection Heq as Heq. apply (f_equal Z.of_int) in Heq.
  now rewrite !DecimalZ.of_to in Heq.
Qed.

(** X11. Scratch names are told apart by the clock reading alone: in one
    directory, two different readings give two different names, and no
    scratch name is the directory's own path. *)
Theorem tempPathOf_distinct (path : PathLike) (t1 t2 : Z) :
  t1 <> t2 ->
  tempPathOf path t1 <> tempPathOf path t2
  /\ tempPathOf path t1 <> toString path.
Proof.
  intros Hne. unfold tempPathOf. split.
  - intros Heq. apply Hne.
    now apply string_app_inv_head, string_app_inv_head, numberToString_inj in Heq.
  - intros Heq. apply (f_equal String.length) in Heq.
    rewrite !length_app in Heq. simpl in Heq. lia.
Qed.

(** ** What a check leaves in the in-memory world *)

Lemma sameExcept_refl (k : option string) (w : MemWorld) : sameExcept k w w.
Proof. unfold sameExcept. auto. Qed.

Lemma sameExcept_insert (K : string) (n : Node) (w : MemWorld) :
  sameExcept (Some K) w (withFiles w (<[K := n]> (files w))).
Proof.
  unfold sameExcept. simpl. repeat split. intros j Hj.
  apply lookup_insert_ne. congruence.
Qed.

Lemma sameExcept_insert_delete (K : string) (n : Node) (w : MemWorld) :
  sameExcept (Some K) w
    (withFiles (withFiles w (<[K := n]> (files w))) (delete K (<[K := n]> (files w)))).
Proof.
  unfold sameExcept. simpl. repeat split. intros j Hj.
  rewrite lookup_delete_ne, lookup_insert_ne by congruence. reflexivity.
Qed.

Lemma sameExcept_delete (K : string) (w : MemWorld) :
  sameExcept (Some K) w (withFiles w (delete K (files w))).
Proof.
  unfold sameExcept. simpl. repeat split. intros j Hj.
  apply lookup_delete_ne. congruence.
Qed.

(** A write either fails and changes nothing, or stores a file under
    the located entry, which held no directory. *)
Lemma memWriteTextFile_cases (s data : string) (w : MemWorld) :
  (exists e, memWriteTextFile (PathString s) data w = (Throw e, w))
  \/ (exists dir name q,
        locate w s = Return (dir, name)
        /\ (forall p', files w !! child dir name <> Some (DirNode p'))
        /\ memWriteTextFile (PathString s) data w
           = (Return tt, withFiles w (<[child dir name := FileNode data q]> (files w)))).
Proof.
  unfold memWriteTextFile, locateArg, resolve.
  destruct (locate w s) as [[dir name]|e]; [|left; eauto].
  destruct (searchDir (files w) dir) as [dperms|e]; [|left; eauto].
  destruct (files w !! child dir name) as [[c p|p|p]|] eqn:Hlook; try (left; eauto; fail).
  - destruct (canWrite p); [|left; eauto].
    right. exists dir, name, p. repeat split. intros p'. rewrite Hlook. discriminate.
  - destruct (canWrite dperms); [|left; eauto].
    right. exists dir, name, defaultPerms. repeat split. intros p'. rewrite Hlook. discriminate.
Qed.

(** A remove either fails and changes nothing, or deletes the located
    entry. *)
Lemma memRemove_cases (s : string) (w : MemWorld) :
  (exists e, memRemove (PathString s) w = (Throw e, w))
  \/ (exists dir name,
        locate w s = Return (dir, name)
        /\ memRemove (PathString s) w
           = (Return tt, withFiles w (delete (child dir name) (files w)))).
Proof.
  unfold memRemove, locateArg, resolve.
  destruct (locate w s) as [[dir name]|e]; [|left; eauto].
  destruct (searchDir (files w) dir) as [dperms|e]; [|left; eauto].
  destruct (files w !! child dir name) as [n|]; [|left; eauto].
  destruct (negb (canWrite dperms)); [left; eauto|].
  destruct n as [c p|p|p]; try (right; eauto; fail).
  destruct (childrenOf (files w) (child dir name)); [right; eauto | left; eauto].
Qed.

Lemma memStat_world path w : snd (memStat path w) = w.
Proof.
  unfold memStat. destruct (keyOf w path) as [k|e]; [|reflexivity].
  destruct (files w !! k) as [[]|]; reflexivity.
Qed.

Lemma memOpen_world path options w : snd (memOpen path options w) = w.
Proof.
  unfold memOpen. destruct (keyOf w path) as [k|e]; [|reflexivity].
  destruct (files w !! k) as [n|]; [|reflexivity].
  destruct (write options && _); [reflexivity|].
  now destruct (implb _ _ && implb _ _).
Qed.

Lemma memReadDir_world path w : snd (memReadDir path w) = w.
Proof.
  unfold memReadDir. destruct (keyOf w path) as [k|e]; [|reflexivity].
  destruct (files w !! k) as [[c p|p|p]|]; try reflexivity. now destruct (canRead p).
Qed.

Lemma memOutput_world cmd args w : snd (memOutput cmd args w) = w.
Proof.
  unfold memOutput. destruct (negb _); [reflexivity|].
  destruct args as [|flag [|file [|]]]; try reflexivity.
  destruct (String.eqb flag "-x"); [|reflexivity].
  destruct (resolveKey w file) as [k|e]; [|reflexivity].
  now destruct (files w !! k).
Qed.

Section Readonly.
Context {os : string}.

Lemma readonly_ret {A} (a : A) : readonly (os := os) (ret a).
Proof. now intros w log. Qed.

Lemma readonly_throw {A} (e : exn) : readonly (os := os) (A := A) (throw e).
Proof. now intros w log. Qed.

Lemma readonly_bind {A B} (c : M (memHost os) A) (f : A -> M (memHost os) B) :
  readonly c -> (forall a, readonly (f a)) -> readonly (bind c f).
Proof.
  intros Hc Hf w log. specialize (Hc w log). unfold bind.
  destruct (c (w, log)) as [[a|e] [w1 log1]]; simpl in *; subst w1; [apply Hf | reflexivity].
Qed.

Lemma readonly_prim {A} ev (f : MemWorld -> completion DenoError A * MemWorld) :
  (forall w, snd (f w) = w) -> readonly (os := os) (prim (h := memHost os) ev f).
Proof.
  intros Hf w log. unfold prim. simpl fst. specialize (Hf w).
  now destruct (f w) as [[a|e] w1].
Qed.

Lemma isExecutableSync_readonly (path : PathLike) :
  readonly (os := os) (isExecutableSync path).
Proof.
  unfold isExecutableSync, Deno_statSync, Deno_permissions_querySync,
    Deno_Command_outputSync.
  apply readonly_bind; [apply readonly_prim, memStat_world|]. intros info.
  destruct (negb (isFile info)); [apply readonly_ret|].
  destruct (String.eqb _ "windows"); [apply readonly_ret|].
  apply readonly_bind; [now apply readonly_prim|]. intros status.
  destruct (negb _); [apply readonly_ret|].
  apply readonly_bind; [apply readonly_prim, memOutput_world|]. intros out.
  apply readonly_ret.
Qed.
End Readonly.

Ltac readonly_step :=
  first [ apply readonly_ret | apply readonly_throw
        | apply isExecutableSync_readonly
        | apply readonly_prim; intros ?;
          first [ apply memStat_world | apply memOpen_world | reflexivity
                | apply memReadDir_world | apply memOutput_world ]
        | apply readonly_bind; [|intros ?; cbv zeta] ].

Section MemoryFrame.
Context (os : string).

(** The try block of a check either leaves the world as it is, or ends
    as the create and remove of the scratch entry end. *)
Lemma accessSyncBody_world (path : PathLike) (mode : option Z) (w : MemWorld)
    (log : list event) :
  fst (snd (accessSyncBody (h := memHost os) path mode (w, log))) = w
  \/ exists log1,
       fst (snd (accessSyncBody (h := memHost os) path mode (w, log)))
       = fst (snd (bind (h := memHost os)
                     (Deno_writeTextFileSync (PathString (tempPathOf path (clock w))) "")
                     (fun _ => Deno_removeSync (PathString (tempPathOf path (clock w))))
                     (w, log1))).
Proof.
  unfold accessSyncBody, Deno_statSync.
  destruct (prim_cases (h := memHost os) (EvStat path) (memStat path) (w, log))
    as [(info & w1 & Hstat & Hp) | (e & w1 & Hstat & Hp)];
    simpl in Hstat; pose proof (memStat_world path w) as Hw;
    rewrite Hstat in Hw; simpl in Hw; subst w1.
  2:{ left. now rewrite (bind_throw (h := memHost os) _ _ _ _ _ Hp). }
  rewrite (bind_return (h := memHost os) _ _ _ _ _ Hp).
  destruct mode as [m|]; [|now left]. cbv zeta.
  unfold Deno_openSync, FsFile_close, Deno_readDirSync.
  destruct (m =? AccessMode.R_OK); [|destruct (m =? AccessMode.W_OK);
    [|destruct (m =? AccessMode.X_OK)]];
    destruct (isFile info), (isDirectory info);
    try (left;
         match goal with
         | |- fst (snd (?c _)) = _ =>
             assert (Hc : readonly (os := os) c) by (repeat readonly_step; destruct a; readonly_step);
             apply Hc
         end; fail);
    try (left;
         match goal with
         | |- fst (snd (?c _)) = _ =>
             assert (Hc : readonly (os := os) c) by (repeat readonly_step);
             apply Hc
         end; fail).
  right. exists ((log ++ [EvStat path]) ++ [EvNow]). reflexivity.
Qed.

(** Creating and then removing the scratch entry touches that entry
    alone. *)
Lemma write_remove_frame (path : PathLike) (w : MemWorld) (log : list event) :
  sameExcept (scratchTarget w path) w
    (fst (snd (bind (h := memHost os)
                 (Deno_writeTextFileSync (PathString (tempPathOf path (clock w))) "")
                 (fun _ => Deno_removeSync (PathString (tempPathOf path (clock w))))
                 (w, log)))).
Proof.
  set (tmp := tempPathOf path (clock w)).
  unfold bind, Deno_writeTextFileSync, Deno_removeSync, prim.
  simpl fst. simpl snd. simpl host_writeTextFile. simpl host_remove.
  destruct (memWriteTextFile_cases tmp "" w) as [(e & ->) | (dir & name & q & Hloc & Hnodir & ->)].
  - apply sameExcept_refl.
  - simpl fst.
    assert (Htarget : scratchTarget w path = Some (child dir name))
      by (unfold scratchTarget; fold tmp; now rewrite Hloc).
    rewrite Htarget.
    set (w1 := withFiles w (<[child dir name := FileNode "" q]> (files w))).
    pose proof (locate_insert w tmp (child dir name) "" q _ Hnodir Hloc) as Hloc1.
    fold w1 in Hloc1.
    destruct (memRemove_cases tmp w1) as [(e & ->) | (dir' & name' & Hloc' & ->)].
    + simpl. apply sameExcept_insert.
    + rewrite Hloc1 in Hloc'. injection Hloc' as <- <-. simpl fst.
      apply sameExcept_insert_delete.
Qed.

(** X12. On the in-memory runtime, a check of any path in any mode, in
    either calling convention and whatever its outcome, leaves the
    working directory, the clock and the permission state as they were
    and changes no entry of the file system except, at most, the one the
    scratch path denotes. *)
Theorem access_touches_only_scratch_entry
    (path : PathLike) (mode : option Z) (w : MemWorld) (log : list event) :
  sameExcept (scratchTarget w path) w
    (fst (snd (accessSync (h := memHost os) path mode (w, log))))
  /\ access (h := memHost os) path mode (w, log)
     = accessSync (h := memHost os) path mode (w, log).
Proof.
  split; [|apply (access_eq (h := memHost os))].
  rewrite (accessSync_state (h := memHost os)).
  destruct (accessSyncBody_world path mode w log) as [-> | (log1 & ->)].
  - apply sameExcept_refl.
  - apply write_remove_frame.
Qed.
End MemoryFrame.

Lemma stripPrefix_app (p s : string) : stripPrefix p (p +:+ s) = Some s.
Proof.
  induction p as [|c p IH]; [reflexivity|].
  change (String c p +:+ s) with (String c (p +:+ s)).
  simpl. now rewrite Ascii.eqb_refl.
Qed.

Section ScratchOutcome.
Context (os : string).

Lemma directory_write_body (path : PathLike) (key : string) (perms : Perms)
    (w : MemWorld) (log : list event) :
  keyOf w path = Return key ->
  files w !! key = Some (DirNode perms) ->
  accessSyncBody (h := memHost os) path (Some AccessMode.W_OK) (w, log)
  = bind (h := memHost os)
      (Deno_writeTextFileSync (PathString (tempPathOf path (clock w))) "")
      (fun _ => Deno_removeSync (PathString (tempPathOf path (clock w))))
      (w, log ++ [EvStat path; EvNow]).
Proof.
  intros Hres Hlook.
  rewrite (accessSyncBody_table (memHost os) path AccessMode.W_OK (w, log)
             {| isFile := false; isDirectory := true; isSymlink := false |} w Directory);
    [| simpl; unfold memStat; now rewrite Hres, Hlook | reflexivity].
  change (resolverTable Directory AccessMode.W_OK) with ScratchCreateDelete.
  unfold runProbe, Date_now, bind at 1. simpl host_now. unfold memNow.
  simpl fst. simpl snd. now rewrite <- app_assoc.
Qed.

(** X13. On the in-memory runtime, whenever the write check of a
    directory succeeds, the file system afterwards is the one before
    with the scratch entry deleted: no scratch entry remains, whether or
    not one of that name existed before, and the four runtime calls
    were stat, clock, create, remove. *)
Theorem directory_write_success_deletes_scratch_name
    (path : PathLike) (key : string) (perms : Perms)
    (w w' : MemWorld) (log log' : list event) :
  keyOf w path = Return key ->
  files w !! key = Some (DirNode perms) ->
  accessSync (h := memHost os) path (Some AccessMode.W_OK) (w, log)
    = (Return tt, (w', log')) ->
  let tmp := tempPathOf path (clock w) in
  exists K,
    scratchTarget w path = Some K
    /\ files w' = delete K (files w)
    /\ files w' !! K = None
    /\ log' = log ++ [EvStat path; EvNow;
                      EvWriteTextFile (PathString tmp) ""; EvRemove (PathString tmp)].
Proof.
  intros Hres Hlook Hrun tmp.
  unfold accessSync, tryCatch in Hrun.
  rewrite (directory_write_body path key perms w log Hres Hlook) in Hrun.
  fold tmp in Hrun. unfold bind, Deno_writeTextFileSync, Deno_removeSync, prim in Hrun.
  simpl fst in Hrun. simpl snd in Hrun.
  simpl host_writeTextFile in Hrun. simpl host_remove in Hrun.
  destruct (memWriteTextFile_cases tmp "" w)
    as [(e & Hwrite) | (dir & name & q & Hloc & Hnodir & Hwrite)];
    rewrite Hwrite in Hrun.
  { unfold accessCatch in Hrun. destruct (instanceofNotFound _); discriminate Hrun. }
  simpl fst in Hrun.
  set (w1 := withFiles w (<[child dir name := FileNode "" q]> (files w))) in *.
  pose proof (locate_insert w tmp (child dir name) "" q _ Hnodir Hloc) as Hloc1.
  fold w1 in Hloc1.
  destruct (memRemove_cases tmp w1) as [(e & Hremove) | (dir' & name' & Hloc' & Hremove)];
    rewrite Hremove in Hrun.
  { unfold accessCatch in Hrun. destruct (instanceofNotFound _); discriminate Hrun. }
  rewrite Hloc1 in Hloc'. injection Hloc' as <- <-.
  injection Hrun as <- <-.
  exists (child dir name). split; [unfold scratchTarget; fold tmp; now rewrite Hloc|].
  simpl. rewrite delete_insert_eq. split; [reflexivity|].
  split; [apply lookup_delete_eq|]. now rewrite <- !app_assoc.
Qed.

(** X17. On the in-memory runtime, write permission on a directory is
    not enough for its write check: without search permission on the
    directory the create call is refused, the check raises
    permission-denied with that refusal as cause, and nothing is written
    or removed. *)
Theorem directory_write_needs_search_permission
    (dir key : string) (perms : Perms) (w : MemWorld) (log : list event) :
  resolveKey w dir = Return key ->
  files w !! key = Some (DirNode perms) ->
  canExec perms = false ->
  let path := PathString dir in
  let tmp := PathString (tempPathOf path (clock w)) in
  accessSync (h := memHost os) path (Some AccessMode.W_OK) (w, log)
  = (Throw (ErrorWithCause ("EACCES: permission denied, Writable '" +:+ dir +:+ "'")
              (Native permissionDeniedError)),
     (w, log ++ [EvStat path; EvNow; EvWriteTextFile tmp ""])).
Proof.
  intros Hkey Hlook Hexec path tmp.
  unfold accessSync.
  rewrite (tryCatch_throw (h := memHost os) _ _ _ (Native permissionDeniedError)
             (w, log ++ [EvStat path; EvNow; EvWriteTextFile tmp ""])).
  - reflexivity.
  - rewrite (directory_write_body path key perms w log)
      by (try assumption; unfold keyOf, resolve, path; assumption).
    apply (bind_throw (h := memHost os)).
    unfold Deno_writeTextFileSync.
    rewrite (prim_throw (h := memHost os) _ _ _ permissionDeniedError w).
    + simpl. now rewrite <- app_assoc.
    + cbn [host_writeTextFile memHost fst].
      unfold memWriteTextFile, locateArg, resolve, path.
      rewrite tempPathOf_segment. unfold toString.
      rewrite (locate_scratch w dir key (clock w) Hkey).
      unfold searchDir, lookupDir. now rewrite Hlook, Hexec.
Qed.
End ScratchOutcome.

(** ** The further properties on the sample world *)

Lemma access_mutates_only_in_directory_write_sample :
  Some AccessMode.W_OK = Some AccessMode.W_OK
  /\ exists info w1,
       host_stat linux (PathString "/srv") (fst start) = (Return info, w1)
       /\ isFile info = false /\ isDirectory info = true.
Proof.
  refine (access_mutates_only_in_directory_write linux (PathString "/srv")
            (Some AccessMode.W_OK) start
            [EvStat (PathString "/srv"); EvNow;
             EvWriteTextFile (PathString scratchName) "";
             EvRemove (PathString scratchName)]
            (EvRemove (PathString scratchName)) _ _ _).
  - vm_compute. reflexivity.
  - right. right. right. left. reflexivity.
  - reflexivity.
Defined.

Lemma access_error_shapes_sample :
  access (h := linux) (PathString "missing.txt") (Some AccessMode.R_OK) start
  = (Throw (ErrorWithCause "ENOENT: no such file or directory, access 'missing.txt'"
              (Native notFoundError)),
     (sampleWorld, [EvStat (PathString "missing.txt")])).
Proof.
  refine (proj1 (access_error_shapes linux (PathString "missing.txt")
                   (Some AccessMode.R_OK) start _ _ _)).
  reflexivity.
Defined.

Lemma access_closes_opened_file_sample :
  snd (accessSync (h := linux) (PathString "/srv/readme.md") (Some AccessMode.W_OK) start)
  = (sampleWorld,
     [EvStat (PathString "/srv/readme.md");
      EvOpen (PathString "/srv/readme.md") {| read := false; write := true |};
      EvClose {| rid := 3 |}]).
Proof.
  refine (proj1 (access_closes_opened_file linux (PathString "/srv/readme.md")
                   AccessMode.W_OK start
                   {| isFile := true; isDirectory := false; isSymlink := false |}
                   sampleWorld sampleWorld {| rid := 3 |} _ _ _ _));
    first [reflexivity | now right].
Defined.

Lemma access_directory_write_failures_sample :
  accessSync (h := linux) (PathString "/srv/locked.dir") (Some AccessMode.W_OK) start
  = (Throw (ErrorWithCause "EACCES: permission denied, Writable '/srv/locked.dir'"
              (Native permissionDeniedError)),
     (sampleWorld,
      [EvStat (PathString "/srv/locked.dir"); EvNow;
       EvWriteTextFile (PathString "/srv/locked.dir/.deno_access_test_1700000000000") ""])).
Proof.
  refine (proj1 (access_directory_write_failures linux (PathString "/srv/locked.dir") start
                   {| isFile := false; isDirectory := true; isSymlink := false |}
                   sampleWorld sampleWorld sampleWorld 1700000000000
                   permissionDeniedError _ _ _ _) _);
    try reflexivity; vm_compute; reflexivity.
Defined.

Lemma access_execute_windows_sample :
  accessSync (h := windows) (PathString "/srv/test.cmd") (Some AccessMode.X_OK) start
  = (Return tt,
     (sampleWorld, [EvStat (PathString "/srv/test.cmd"); EvStat (PathString "/srv/test.cmd")])).
Proof.
  refine (proj1 (access_execute_windows windows (PathString "/srv/test.cmd") start
                   {| isFile := true; isDirectory := false; isSymlink := false |}
                   {| isFile := true; isDirectory := false; isSymlink := false |}
                   sampleWorld sampleWorld _ _ _ _ _ _) _);
    try reflexivity.
  exists ".cmd", "/srv/test", ".cmd".
  split; [apply list_elem_of_In; right; now left | split; reflexivity].
Defined.

Lemma access_execute_posix_sample :
  accessSync (h := linux) (PathString "/srv/run.sh") (Some AccessMode.X_OK) start
  = (Return tt,
     (sampleWorld,
      [EvStat (PathString "/srv/run.sh"); EvStat (PathString "/srv/run.sh");
       EvQuery {| permName := "run"; command := PathString "/srv/run.sh" |};
       EvOutput "test" ["-x"; "/srv/run.sh"]])).
Proof.
  refine (proj1 (proj2 (access_execute_posix linux (PathString "/srv/run.sh") start
                          {| isFile := true; isDirectory := false; isSymlink := false |}
                          {| isFile := true; isDirectory := false; isSymlink := false |}
                          sampleWorld sampleWorld sampleWorld {| state := granted |}
                          _ _ _ _ _ _ _))
            _ {| code := 0 |} sampleWorld _);
    first [reflexivity | discriminate].
Defined.

Lemma tempPathOf_distinct_sample :
  tempPathOf (PathString "/srv") 1700000000000 <> tempPathOf (PathString "/srv") 1700000000001
  /\ tempPathOf (PathString "/srv") 1700000000000 <> "/srv".
Proof.
  refine (tempPathOf_distinct (PathString "/srv") 1700000000000 1700000000001 _).
  discriminate.
Defined.

Lemma directory_write_success_deletes_scratch_name_sample :
  files (fst (snd (accessSync (h := linux) (PathString "/srv") (Some AccessMode.W_OK)
                     (collidingWorld, []))))
  = delete scratchName (files collidingWorld).
Proof.
  destruct (directory_write_success_deletes_scratch_name "linux" (PathString "/srv")
              "/srv" rwx collidingWorld
              (fst (snd (accessSync (h := linux) (PathString "/srv")
                           (Some AccessMode.W_OK) (collidingWorld, []))))
              []
              (snd (snd (accessSync (h := linux) (PathString "/srv")
                           (Some AccessMode.W_OK) (collidingWorld, []))))
              eq_refl eq_refl ltac:(vm_compute; reflexivity))
    as (K & HK & Hfiles & _).
  vm_compute in HK. injection HK as <-. exact Hfiles.
Defined.


Lemma directory_write_needs_search_permission_sample :
  accessSync (h := linux) (PathString "/srv/drop") (Some AccessMode.W_OK)
    (withFiles sampleWorld
       (<["/srv/drop" := DirNode {| canRead := false; canWrite := true; canExec := false |}]>
          sampleFiles), [])
  = (Throw (ErrorWithCause "EACCES: permission denied, Writable '/srv/drop'"
              (Native permissionDeniedError)),
     (withFiles sampleWorld
        (<["/srv/drop" := DirNode {| canRead := false; canWrite := true; canExec := false |}]>
           sampleFiles),
      [EvStat (PathString "/srv/drop"); EvNow;
       EvWriteTextFile (PathString "/srv/drop/.deno_access_test_1700000000000") ""])).
Proof.
  refine (directory_write_needs_search_permission "linux" "/srv/drop" "/srv/drop"
            {| canRead := false; canWrite := true; canExec := false |}
            (withFiles sampleWorld
               (<["/srv/drop" := DirNode {| canRead := false; canWrite := true;
                                            canExec := false |}]> sampleFiles))
            [] _ _ _); vm_compute; reflexivity.
Defined.

(** ** Directories, and a stat that fails *)

Section Directories.
Context (h : Host).

(** X15. For a path stat reports as a directory, the read check and the
    execute check make the same runtime calls (stat, then one directory
    read) and end in the same world; both succeed as soon as the
    directory read returns, whatever it lists, an empty directory
    included; and when it fails both fail with that failure as cause. *)
Theorem access_directory_read_execute
    (path : PathLike) (s : st h) (info : FileInfo) (w1 : world h) :
  host_stat h path (fst s) = (Return info, w1) ->
  isFile info = false ->
  isDirectory info = true ->
  let listed := snd s ++ [EvStat path; EvReadDir path] in
  (forall entries w2,
     host_readDir h path w1 = (Return entries, w2) ->
     accessSync path (Some AccessMode.R_OK) s = (Return tt, (w2, listed))
     /\ accessSync path (Some AccessMode.X_OK) s = (Return tt, (w2, listed)))
  /\ (forall e w2,
        host_readDir h path w1 = (Throw e, w2) ->
        accessSync path (Some AccessMode.R_OK) s
          = (Throw (classified path (Some AccessMode.R_OK) e), (w2, listed))
        /\ accessSync path (Some AccessMode.X_OK) s
          = (Throw (classified path (Some AccessMode.X_OK) e), (w2, listed)))
  /\ snd (accessSync path (Some AccessMode.X_OK) s)
     = snd (accessSync path (Some AccessMode.R_OK) s).
Proof.
  intros Hstat Hfile Hdir listed.
  assert (Hkind : kindOf info = Some Directory)
    by (unfold kindOf; now rewrite Hfile, Hdir).
  assert (Hbody : forall m, m = AccessMode.R_OK \/ m = AccessMode.X_OK ->
            accessSyncBody path (Some m) s
            = bind (Deno_readDirSync path) (fun _ => ret tt) (w1, snd s ++ [EvStat path])).
  { intros m Hm.
    rewrite (accessSyncBody_table h path m s info w1 Directory Hstat Hkind).
    now destruct Hm as [-> | ->]. }
  assert (Hcatch : forall m e (s' : st h),
            accessCatch path (Some m) (Native e) s'
            = (Throw (classified path (Some m) e), s')).
  { intros m e s'. unfold accessCatch, classified, instanceofNotFound.
    destruct e as [[] msg]; reflexivity. }
  split; [|split].
  - intros entries w2 Hread.
    assert (Hrun : bind (Deno_readDirSync path) (fun _ => ret tt)
                     (w1, snd s ++ [EvStat path])
                   = (Return tt, (w2, listed))).
    { rewrite (bind_return _ _ _ entries (w2, listed)); [reflexivity|].
      unfold Deno_readDirSync. rewrite (prim_return _ _ _ entries w2) by exact Hread.
      unfold listed. simpl. now rewrite <- app_assoc. }
    split; unfold accessSync; apply tryCatch_return; rewrite Hbody; auto.
  - intros e w2 Hread.
    assert (Hrun : bind (Deno_readDirSync path) (fun _ => ret tt)
                     (w1, snd s ++ [EvStat path])
                   = (Throw (Native e), (w2, listed))).
    { apply bind_throw.
      unfold Deno_readDirSync. rewrite (prim_throw _ _ _ e w2) by exact Hread.
      unfold listed. simpl. now rewrite <- app_assoc. }
    split; unfold accessSync;
      rewrite (tryCatch_throw _ _ s (Native e) (w2, listed));
      try apply Hcatch; rewrite Hbody; auto.
  - rewrite !accessSync_state, !Hbody; auto.
Qed.

(** X16. When stat fails with anything but a not-found error, a check
    for existence and a check with the mode omitted both fail with
    permission-denied and the stat failure as cause, but their messages
    differ: the first names the mode [Exists], the second leaves the
    mode name empty. *)
Theorem access_stat_failure_messages
    (path : PathLike) (s : st h) (e : DenoError) (w1 : world h) :
  host_stat h path (fst s) = (Throw e, w1) ->
  errClass e <> NotFound ->
  accessSync path (Some AccessMode.F_OK) s
    = (Throw (ErrorWithCause
                ("EACCES: permission denied, Exists '" +:+ toString path +:+ "'")
                (Native e)),
       (w1, snd s ++ [EvStat path]))
  /\ accessSync path None s
    = (Throw (ErrorWithCause
                ("EACCES: permission denied,  '" +:+ toString path +:+ "'")
                (Native e)),
       (w1, snd s ++ [EvStat path])).
Proof.
  intros Hstat Hclass.
  assert (Hbody : forall mode,
            accessSyncBody path mode s = (Throw (Native e), (w1, snd s ++ [EvStat path]))).
  { intros mode. unfold accessSyncBody. apply bind_throw. now apply prim_throw. }
  assert (Hnf : instanceofNotFound (Native e) = false).
  { destruct e as [[] msg]; simpl in *; congruence. }
  split; unfold accessSync; rewrite (tryCatch_throw _ _ _ _ _ (Hbody _));
    unfold accessCatch; now rewrite Hnf.
Qed.
End Directories.

Lemma access_directory_read_execute_sample :
  accessSync (h := linux) (PathString "/srv/tools.exe") (Some AccessMode.R_OK) start
    = (Return tt,
       (sampleWorld,
        [EvStat (PathString "/srv/tools.exe"); EvReadDir (PathString "/srv/tools.exe")]))
  /\ accessSync (h := linux) (PathString "/srv/tools.exe") (Some AccessMode.X_OK) start
    = (Return tt,
       (sampleWorld,
        [EvStat (PathString "/srv/tools.exe"); EvReadDir (PathString "/srv/tools.exe")])).
Proof.
  refine (proj1 (access_directory_read_execute linux (PathString "/srv/tools.exe") start
                   {| isFile := false; isDirectory := true; isSymlink := false |}
                   sampleWorld _ _ _) [] sampleWorld _);
    reflexivity.
Defined.

Lemma access_stat_failure_messages_sample :
  accessSync (h := linux) (PathURL "https://example.org/") (Some AccessMode.F_OK) start
    = (Throw (ErrorWithCause "EACCES: permission denied, Exists 'https://example.org/'"
                (Native {| errClass := TypeError; errMessage := "Must be a file URL." |})),
       (sampleWorld, [EvStat (PathURL "https://example.org/")]))
  /\ accessSync (h := linux) (PathURL "https://example.org/") None start
    = (Throw (ErrorWithCause "EACCES: permission denied,  'https://example.org/'"
                (Native {| errClass := TypeError; errMessage := "Must be a file URL." |})),
       (sampleWorld, [EvStat (PathURL "https://example.org/")])).
Proof.
  refine (access_stat_failure_messages linux (PathURL "https://example.org/") start
            {| errClass := TypeError; errMessage := "Must be a file URL." |} sampleWorld _ _);
    first [reflexivity | discriminate].
Defined.
